(** * sepHealthPushapp: the message-state synchronisation core of [src/App.js]

    A shallow embedding of the part of the React Native client that keeps
    the list of push messages and decides when a local notification is
    shown: the [messages] state (the Message Store), the
    [shownNotifications] set (the Seen-Notification Ledger), the
    [fetchMessages] function with its [try]/[catch]/[finally], the
    [statusUpdate] socket handler, [onRefresh] and
    [sendNotificationFromMessage]; and, around that core, of the
    registration of the device ([registerForPushNotificationsAsync],
    [registerTokenWithBackend], [registerWebDevice]), of
    [sendTestNotification] and of the addresses of the backend.

    JavaScript runs each callback to completion between two [await]s, so
    every handler below is one atomic step of a small state-and-output
    monad; an [async] function is cut at its [await] into the part that
    runs when it is called and the part that runs when the awaited promise
    settles. *)

From Stdlib Require Import Ascii.
From stdpp Require Import base numbers strings list gmap pretty.

#[local] Set Warnings "-clear-no-such-hyp".

Local Open Scope string_scope.
Local Open Scope Z_scope.
Local Open Scope list_scope.

(** ** Data *)

(** A date-valued JSON field as [App.js] uses it: only its truthiness
    ([msg.deliveredAt ? ... : ...]) and the time value of [new Date(v)]
    are observed. *)
Inductive timestamp : Type :=
| TsAbsent             (* undefined or the empty string: falsy, new Date gives NaN *)
| TsNull               (* null or 0: falsy, new Date gives time 0 *)
| TsDate (ms : Z)      (* a date string or non-zero number: truthy, valid time *)
| TsInvalid.           (* a non-empty string that is not a date: truthy, NaN *)

Definition truthy (t : timestamp) : bool :=
  match t with
  | TsDate _ | TsInvalid => true
  | TsAbsent | TsNull => false
  end.

(** [new Date(v).getTime()], with [None] for NaN. *)
Definition getTime (t : timestamp) : option Z :=
  match t with
  | TsDate ms => Some ms
  | TsNull => Some 0
  | TsAbsent | TsInvalid => None
  end.

(** [a > b] on two Date objects: numeric comparison of the time values,
    false as soon as one of them is NaN. *)
Definition date_gt (a b : option Z) : bool :=
  match a, b with
  | Some x, Some y => bool_decide (y < x)
  | _, _ => false
  end.

(** One element of [result.data], with the fields the client reads. *)
Record Message : Type := {
  _id : string;
  title : string;
  content : option string;
  body : option string;
  status : string;
  deliveredAt : timestamp;
  updatedAt : timestamp;
  scheduledDateTime : timestamp;
  createdAt : timestamp;
  category : string;
  priority : option string;
  healthCategory : string
}.

(** The payload of a [statusUpdate] socket event. *)
Module Update.
Record t : Type := {
  messageId : string;
  status : string;
  deliveredAt : timestamp
}.
End Update.

(** [message.content || message.body]: the first operand unless it is
    falsy (undefined or the empty string). *)
Definition content_or_body (m : Message) : option string :=
  match content m with
  | Some s => if bool_decide (s = "") then body m else Some s
  | None => body m
  end.

(** The parsed body of the reply, [result]: an object, with the
    truthiness of [result.success] and the array [result.data] ([None]
    when the property is missing or null), or an array. A JSON array has
    no [success] and no [data] property. *)
Inductive Result : Type :=
| ResObject (success : bool) (data : option (list Message))
| ResArray (items : list Message).

Definition success (r : Result) : bool :=
  match r with
  | ResObject s _ => s
  | ResArray _ => false
  end.

Definition data (r : Result) : option (list Message) :=
  match r with
  | ResObject _ d => d
  | ResArray _ => None
  end.

Definition isArray (r : Result) : option (list Message) :=
  match r with
  | ResObject _ _ => None
  | ResArray l => Some l
  end.

(** What [fetch] resolves to: the [ok] flag, the status code and the
    body, [None] when [response.json()] rejects. *)
Record Response : Type := {
  ok : bool;
  http_status : Z;
  json : option Result
}.

(** What the network does with one GET request. *)
Inductive Network : Type :=
| ConnectionFailed                          (* fetch rejects *)
| Arrives (after_ms : Z) (r : Response).    (* headers arrive after_ms later *)

(** What the [try] block of [fetchMessages] can throw. *)
Inductive Error : Type :=
| NetworkFailure
| AbortError
| HttpError (code : Z)
| JsonSyntaxError.

(** What the handlers do to the outside world. *)
Inductive Effect : Type :=
| ScheduleNotification (ntitle : string) (nbody : option string) (messageId : string)
| AlertAlert (atitle atext : string)
| ConsoleLog (line : string)
| ConsoleError (line : string)
| HttpGet (isPoll : bool)            (* the GET request of fetchMessages(isPoll) *)
| SetInterval (period_ms : Z).       (* the polling timer is installed *)

(** The component state: [useState] cells and the [useRef] set. *)
Record State : Type := {
  messages : list Message;
  shownNotifications : gset string;
  loading : bool;
  refreshing : bool
}.

Definition initial : State :=
  {| messages := []; shownNotifications := ∅; loading := false; refreshing := false |}.

(** ** The monad of handlers: state, output, exceptions *)

Inductive Completion (A : Type) : Type :=
| Normal (a : A)
| Thrown (e : Error).
Arguments Normal {A} a.
Arguments Thrown {A} e.

Definition JS (A : Type) : Type := State → Completion A * State * list Effect.

#[global] Instance JS_ret : MRet JS := λ A a st, (Normal a, st, []).

#[global] Instance JS_bind : MBind JS := λ A B f m st,
  match m st with
  | (Normal a, st1, out1) =>
      let '(c, st2, out2) := f a st1 in (c, st2, out1 ++ out2)
  | (Thrown e, st1, out1) => (Thrown e, st1, out1)
  end.

Definition throw {A} (e : Error) : JS A := λ st, (Thrown e, st, []).
Definition emit (e : Effect) : JS unit := λ st, (Normal (), st, [e]).
Definition get : JS State := λ st, (Normal st, st, []).
Definition modify (f : State → State) : JS unit := λ st, (Normal (), f st, []).

(** [try { m } catch (error) { h error }] *)
Definition try_catch {A} (m : JS A) (h : Error → JS A) : JS A := λ st,
  match m st with
  | (Normal a, st1, out1) => (Normal a, st1, out1)
  | (Thrown e, st1, out1) =>
      let '(c, st2, out2) := h e st1 in (c, st2, out1 ++ out2)
  end.

(** [try { m } finally { f }]: [f] runs on both exits and the completion
    of [m] is kept unless [f] itself throws. *)
Definition finally {A} (m : JS A) (f : JS unit) : JS A := λ st,
  let '(c, st1, out1) := m st in
  match f st1 with
  | (Normal _, st2, out2) => (c, st2, out1 ++ out2)
  | (Thrown e, st2, out2) => (Thrown e, st2, out1 ++ out2)
  end.

Definition when (b : bool) (m : JS unit) : JS unit :=
  if b then m else mret ().

(** [l.forEach(f)] *)
Fixpoint forEach {A} (l : list A) (f : A → JS unit) : JS unit :=
  match l with
  | [] => mret ()
  | x :: l' => f x ;; forEach l' f
  end.

(** State and output of a handler, whatever its completion. *)
Definition exec {A} (m : JS A) (st : State) : State * list Effect :=
  let '(_, st', out) := m st in (st', out).

(** ** State cells *)

Definition setMessages (l : list Message) : JS unit :=
  modify (λ st, {| messages := l;
                   shownNotifications := shownNotifications st;
                   loading := loading st;
                   refreshing := refreshing st |}).

(** [setMessages(prev => f(prev))] *)
Definition setMessages_with (f : list Message → list Message) : JS unit :=
  modify (λ st, {| messages := f (messages st);
                   shownNotifications := shownNotifications st;
                   loading := loading st;
                   refreshing := refreshing st |}).

Definition setLoading (b : bool) : JS unit :=
  modify (λ st, {| messages := messages st;
                   shownNotifications := shownNotifications st;
                   loading := b;
                   refreshing := refreshing st |}).

Definition setRefreshing (b : bool) : JS unit :=
  modify (λ st, {| messages := messages st;
                   shownNotifications := shownNotifications st;
                   loading := loading st;
                   refreshing := b |}).

(** [shownNotifications.current.add(id)] *)
Definition shown_add (id : string) : JS unit :=
  modify (λ st, {| messages := messages st;
                   shownNotifications := {[ id ]} ∪ shownNotifications st;
                   loading := loading st;
                   refreshing := refreshing st |}).

(** [shownNotifications.current.has(id)] *)
Definition shown_has (id : string) : JS bool :=
  st ← get; mret (bool_decide (id ∈ shownNotifications st)).

(** ** The handlers of [App] *)

Definition newline : string := String "010"%char "".

(** The abort timer of [fetchMessages], in milliseconds. *)
Definition FETCH_TIMEOUT : Z := 10000.

(** The recency window of the alert decision, [2 * 60 * 1000]. *)
Definition TWO_MINUTES : Z := 2 * 60 * 1000.

(** The period of the polling timer, in milliseconds. *)
Definition POLL_INTERVAL : Z := 60000.

Section App.

(** [Platform.OS === 'web'] *)
Variable isWeb : bool.

Definition sendNotificationFromMessage (message : Message) : JS unit :=
  if isWeb then
    emit (AlertAlert "Test Notification"
            (title message +:+ newline +:+ newline
             +:+ default "undefined" (content_or_body message)))
  else
    emit (ScheduleNotification (title message) (content_or_body message)
            (_id message)).

(** [fetchMessages(isPoll)] up to its first [await]: the request leaves. *)
Definition fetchMessages_call (isPoll : bool) : JS unit :=
  when (negb isPoll)
    (emit (ConsoleLog "Fetching messages from:") ;; setLoading true) ;;
  emit (HttpGet isPoll).

(** [await fetch(API_ENDPOINT, { signal })] with the abort timer armed. *)
Definition await_fetch (net : Network) : JS Response :=
  match net with
  | ConnectionFailed => throw NetworkFailure
  | Arrives after_ms r =>
      if bool_decide (after_ms < FETCH_TIMEOUT) then mret r
      else throw AbortError
  end.

(** [await response.json()] *)
Definition await_json (response : Response) : JS Result :=
  match json response with
  | Some r => mret r
  | None => throw JsonSyntaxError
  end.

(** The time a message counts as sent at:
    [msg.deliveredAt ? new Date(msg.deliveredAt) : new Date(msg.updatedAt)] *)
Definition sentAt (msg : Message) : option Z :=
  if truthy (deliveredAt msg) then getTime (deliveredAt msg)
  else getTime (updatedAt msg).

(** The body of the second [forEach] of [fetchMessages]. *)
Definition alert_if_new (twoMinutesAgo : option Z) (msg : Message) : JS unit :=
  seen ← shown_has (_id msg);
  when (bool_decide (status msg = "Sent") && negb seen
        && date_gt (sentAt msg) twoMinutesAgo)
    (emit (ConsoleLog "Polling found new Sent message, triggering local alert:") ;;
     sendNotificationFromMessage msg ;;
     shown_add (_id msg)).

(** The body of the first [forEach] of [fetchMessages]. *)
Definition mark_if_sent (msg : Message) : JS unit :=
  when (bool_decide (status msg = "Sent")) (shown_add (_id msg)).

(** [fetchMessages(isPoll)] from the moment the request settles: the
    rest of the [try] block, the [catch] and the [finally]. [now] is
    what [Date.now()] returns. *)
Definition fetchMessages_settle (isPoll : bool) (net : Network) (now : Z) : JS unit :=
  finally
    (try_catch
       (response ← await_fetch net;
        (if negb (ok response) then throw (HttpError (http_status response))
         else mret ()) ;;
        result ← await_json response;
        (if isPoll then mret () else emit (ConsoleLog "Messages response:")) ;;
        match success result, data result with
        | true, Some fetchedMessages =>
            setMessages fetchedMessages ;;
            when (negb isPoll)
              (forEach fetchedMessages mark_if_sent ;;
               emit (ConsoleLog "Initialized: messages marked as seen.")) ;;
            when (negb isWeb && isPoll)
              (let twoMinutesAgo := Some (now - TWO_MINUTES) in
               forEach fetchedMessages (alert_if_new twoMinutesAgo))
        | _, _ =>
            match success result, isArray result with
            | true, Some l => setMessages l
            | _, _ => mret ()
            end
        end)
       (λ error,
          when (negb isPoll)
            (emit (ConsoleError "Error fetching messages:") ;;
             emit (AlertAlert "Connection Error"
                     "Could not connect to Bull Queue server."))))
    (when (negb isPoll) (setLoading false ;; setRefreshing false)).

(** The object the [statusUpdate] handler puts in place of a message:
    [{ ...msg, status: update.status, deliveredAt: update.deliveredAt }] *)
Definition patch (update : Update.t) (msg : Message) : Message :=
  {| _id := _id msg;
     title := title msg;
     content := content msg;
     body := body msg;
     status := Update.status update;
     deliveredAt := Update.deliveredAt update;
     updatedAt := updatedAt msg;
     scheduledDateTime := scheduledDateTime msg;
     createdAt := createdAt msg;
     category := category msg;
     priority := priority msg;
     healthCategory := healthCategory msg |}.

Definition applyPartial (update : Update.t) (prev : list Message) : list Message :=
  map (λ msg, if bool_decide (_id msg = Update.messageId update)
              then patch update msg else msg) prev.

(** [socket.on('statusUpdate', (update) => ...)] *)
Definition on_statusUpdate (update : Update.t) : JS unit :=
  emit (ConsoleLog "Real-time update received:") ;;
  setMessages_with (applyPartial update) ;;
  seen ← shown_has (Update.messageId update);
  when (bool_decide (Update.status update = "Sent") && negb seen)
    (emit (ConsoleLog "Status changed to Sent, triggering immediate content fetch...") ;;
     fetchMessages_call true).

Definition onRefresh : JS unit :=
  setRefreshing true ;; fetchMessages_call false.

(** The effect hook of the component, as far as fetching goes:
    [fetchMessages()], then, on a native platform only, the timer whose
    ticks call [fetchMessages(true)]. *)
Definition mount : JS unit :=
  fetchMessages_call false ;;
  when (negb isWeb)
    (emit (ConsoleLog "Starting auto-polling for Sent messages (60s interval)...") ;;
     emit (SetInterval POLL_INTERVAL)).

(** ** Events *)

Inductive Event : Type :=
| Mount                                      (* the effect hook runs *)
| PollTick                                   (* the interval timer: fetchMessages(true) *)
| Refresh                                    (* the refresh button or pull *)
| StatusUpdate (update : Update.t)           (* a socket event *)
| Preview (message : Message)                (* the Test button of a card *)
| Settled (isPoll : bool) (net : Network) (now : Z).   (* a request settles *)

Definition handle (ev : Event) : JS unit :=
  match ev with
  | Mount => mount
  | PollTick => fetchMessages_call true
  | Refresh => onRefresh
  | StatusUpdate update => on_statusUpdate update
  | Preview message => sendNotificationFromMessage message
  | Settled isPoll net now => fetchMessages_settle isPoll net now
  end.

(** A run of the component: the state after the events and, for each
    event, what its handler did. *)
Fixpoint run (evs : list Event) (st : State) : State * list (Event * list Effect) :=
  match evs with
  | [] => (st, [])
  | ev :: evs' =>
      let '(st1, out) := exec (handle ev) st in
      let '(st2, log) := run evs' st1 in
      (st2, (ev, out) :: log)
  end.

End App.

(** ** Observations on states, outputs and runs *)

(** A reply that arrives in time with [response.ok] and the body
    [{ success: true, data: l }]. *)
Definition ok_reply (after_ms : Z) (l : list Message) : Network :=
  Arrives after_ms
    {| ok := true; http_status := 200; json := Some (ResObject true (Some l)) |}.

(** The ways a request fails before its result is looked at. *)
Inductive fetch_fails : Network → Prop :=
| fails_network : fetch_fails ConnectionFailed
| fails_timeout after_ms r :
    FETCH_TIMEOUT ≤ after_ms → fetch_fails (Arrives after_ms r)
| fails_status after_ms r :
    ok r = false → fetch_fails (Arrives after_ms r)
| fails_body after_ms r :
    json r = None → fetch_fails (Arrives after_ms r).

(** What [sendNotificationFromMessage] hands to the platform. *)
Definition present (isWeb : bool) (message : Message) : Effect :=
  if isWeb then
    AlertAlert "Test Notification"
      (title message +:+ newline +:+ newline
       +:+ default "undefined" (content_or_body message))
  else
    ScheduleNotification (title message) (content_or_body message) (_id message).

(** An effect that shows a message to the user as an alert. *)
Definition is_present (e : Effect) : bool :=
  match e with
  | ScheduleNotification _ _ _ => true
  | AlertAlert t _ => bool_decide (t = "Test Notification")
  | _ => false
  end.

(** An effect that writes to the console. *)
Definition is_logged (e : Effect) : bool :=
  match e with
  | ConsoleLog _ | ConsoleError _ => true
  | _ => false
  end.

(** A local notification whose [data.messageId] is [id]. *)
Definition is_notification_for (id : string) (e : Effect) : bool :=
  match e with
  | ScheduleNotification _ _ id' => bool_decide (id' = id)
  | _ => false
  end.

(** How many local notifications an output schedules for one identity. *)
Definition notified (id : string) (out : list Effect) : nat :=
  length (List.filter (is_notification_for id) out).

(** The steps in which the rest of [fetchMessages] runs. *)
Definition from_fetch (ev : Event) : bool :=
  match ev with
  | Settled _ _ _ => true
  | _ => false
  end.

(** The notifications for one identity that one step of a run owes to
    the alert decision of [fetchMessages]: those of a settling fetch. *)
Definition engine_count (id : string) (ev : Event) (out : list Effect) : nat :=
  if from_fetch ev then notified id out else 0%nat.

(** The notifications for one identity that the alert decision of
    [fetchMessages] scheduled during a run; the Test button is left out. *)
Fixpoint engine_alerts (id : string) (log : list (Event * list Effect)) : nat :=
  match log with
  | [] => 0%nat
  | (ev, out) :: log' => (engine_count id ev out + engine_alerts id log')%nat
  end.

(** The recency test of the alert decision:
    [sentAt > new Date(now - 2 * 60 * 1000)]. *)
Definition recent (now : Z) (msg : Message) : bool :=
  date_gt (sentAt msg) (Some (now - TWO_MINUTES)).

(** The whole condition of the alert decision, for a ledger [seen]. *)
Definition due (now : Z) (seen : gset string) (msg : Message) : bool :=
  bool_decide (status msg = "Sent") && negb (bool_decide (_id msg ∈ seen))
  && recent now msg.

(** A message of the result that makes identity [id] due. *)
Definition wanted (now : Z) (id : string) (msg : Message) : bool :=
  bool_decide (_id msg = id) && bool_decide (status msg = "Sent") && recent now msg.

(** The state with another ledger, and with another store. *)
Definition with_shown (s : gset string) (st : State) : State :=
  {| messages := messages st; shownNotifications := s;
     loading := loading st; refreshing := refreshing st |}.

Definition with_messages (l : list Message) (st : State) : State :=
  {| messages := l; shownNotifications := shownNotifications st;
     loading := loading st; refreshing := refreshing st |}.

(** The identities of the [Sent] messages of a result. *)
Definition sent_ids (l : list Message) : gset string :=
  list_to_set (map _id (List.filter (λ m, bool_decide (status m = "Sent")) l)).

(** The messages the second [forEach] of [fetchMessages] alerts for, in
    order, when it starts from the ledger [seen]: each alerted identity
    joins the ledger before the next message is examined. *)
Fixpoint alerts_of (now : Z) (seen : gset string) (l : list Message) : list Message :=
  match l with
  | [] => []
  | m :: l' =>
      if due now seen m then m :: alerts_of now ({[ _id m ]} ∪ seen) l'
      else alerts_of now seen l'
  end.

(** What the loop prints and schedules for one alerted message. *)
Definition alert_output (isWeb : bool) (m : Message) : list Effect :=
  [ConsoleLog "Polling found new Sent message, triggering local alert:";
   present isWeb m].

(** A request whose reply arrives before the abort timer, with
    [response.ok] and a body [{ success: true, data: l }]. *)
Inductive delivers : Network → list Message → Prop :=
| delivers_intro after_ms r l :
    after_ms < FETCH_TIMEOUT → ok r = true →
    json r = Some (ResObject true (Some l)) →
    delivers (Arrives after_ms r) l.

(** A reply that arrives in time with [response.ok] and a body that
    [fetchMessages] does nothing with: [success] falsy or no [data]. *)
Inductive ignored : Network → Prop :=
| ignored_intro after_ms r res :
    after_ms < FETCH_TIMEOUT → ok r = true → json r = Some res →
    (success res = false ∨ data res = None) →
    ignored (Arrives after_ms r).

(** The state [fetchMessages] leaves when nothing but its [finally]
    block touched it. *)
Definition settle_flags (isPoll : bool) (st : State) : State :=
  if isPoll then st
  else {| messages := messages st; shownNotifications := shownNotifications st;
          loading := false; refreshing := false |}.

(** How many alerts an output shows, whatever the message. *)
Definition presented (out : list Effect) : nat :=
  length (List.filter is_present out).

(** Everything the handlers of a run did, in order. *)
Definition all_output (log : list (Event * list Effect)) : list Effect :=
  concat (map snd log).

(** A message with the given identity, status and times, used to run
    the handlers on concrete inputs. *)
Definition sample (id st : string) (delivered updated : timestamp) : Message :=
  {| _id := id; title := "Reminder"; content := Some "Take your medication";
     body := None; status := st; deliveredAt := delivered; updatedAt := updated;
     scheduledDateTime := TsAbsent; createdAt := TsAbsent;
     category := "Medication"; priority := None; healthCategory := "General" |}.

(** A GET request of [fetchMessages] leaving the device. *)
Definition is_request (e : Effect) : bool :=
  match e with
  | HttpGet _ => true
  | _ => false
  end.

(** How many requests an output sends. *)
Definition requests (out : list Effect) : nat :=
  length (List.filter is_request out).

(** ** The rest of the component: registration and the test message *)

(** [Platform.OS] *)
Inductive OS : Type := Web | Android | Ios | Windows | Macos.

Definition os_name (os : OS) : string :=
  match os with
  | Web => "web"
  | Android => "android"
  | Ios => "ios"
  | Windows => "windows"
  | Macos => "macos"
  end.

(** [isWeb], that is [Platform.OS === 'web'] *)
Definition os_isWeb (os : OS) : bool :=
  match os with
  | Web => true
  | _ => false
  end.

Definition os_isAndroid (os : OS) : bool :=
  match os with
  | Android => true
  | _ => false
  end.

(** A property of a request body after [JSON.stringify]: an undefined
    value is left out, a null one is sent. *)
Inductive JsonField : Type := Omitted | Null.

(** The POST requests of the component. A registration also carries
    [appVersion: '1.0.0'], [userId: null] and [healthProfile: {}]. *)
Inductive Post : Type :=
| RegisterDevice (pushToken platform : string)
| ImmediateMessage (mtitle mbody mcategory : string) (deviceId : JsonField).

(** The parsed body of the reply to a POST, as far as it is read:
    [result.success], [result.error] and [result.results?.length]. *)
Record ApiResult : Type := {
  api_success : bool;
  api_error : option string;
  api_results : option nat
}.

(** The body of the reply to a POST: not JSON, the JSON [null], or
    anything else. *)
Inductive ApiBody : Type :=
| Unparseable
| JsonNull
| JsonValue (r : ApiResult).

(** What the network does with a POST; the status code is only printed,
    [response.ok] is not looked at. *)
Inductive PostReply : Type :=
| PostFailed
| PostAnswered (code : Z) (b : ApiBody).

(** What the platform is asked to do besides the effects of the core. *)
Inductive ShellEffect : Type :=
| Core (e : Effect)
| HttpPost (request : Post)
| SetNotificationChannel
| GetPermissions
| RequestPermissions
| GetExpoPushToken (projectId : string).

(** What the [try] blocks of the registration and test handlers can
    throw. *)
Inductive ShellError : Type :=
| FetchRejected
| BodyRejected
| NullHasNoProperty
| TokenRejected.

(** The state of the component: the cells of the core and the others. A
    push token is a string, or [None] for null and undefined. *)
Record UI : Type := {
  core : State;
  expoPushToken : option string;
  tokenRegistered : bool;
  testingNotification : bool
}.

Definition ui_initial : UI :=
  {| core := initial; expoPushToken := Some "";
     tokenRegistered := false; testingNotification := false |}.

(** The truthiness of a token: a non-empty string. *)
Definition token_truthy (t : option string) : bool :=
  match t with
  | Some s => negb (bool_decide (s = ""))
  | None => false
  end.

(** [a || d] for an optional string [a]. *)
Definition or_default (a : option string) (d : string) : string :=
  match a with
  | Some s => if bool_decide (s = "") then d else s
  | None => d
  end.

(** [s.includes(pat)] *)
Definition includes (pat s : string) : bool :=
  match String.index 0 pat s with
  | Some _ => true
  | None => false
  end.

(** What [Device], [Constants] and the notification module answer on
    one device. *)
Record Device : Type := {
  isDevice : bool;
  modelName : string;
  existingStatus : string;
  requestedStatus : string;
  easProjectId : option string;
  expoToken : option string
}.

Definition DEFAULT_PROJECT_ID : string := "83d4b978-dc73-495d-9af4-64d054ca3b95".

Inductive ShCompletion (A : Type) : Type :=
| ShNormal (a : A)
| ShThrown (e : ShellError).
Arguments ShNormal {A} a.
Arguments ShThrown {A} e.

(** The monad of the handlers that work on the whole state. *)
Definition Sh (A : Type) : Type := UI → ShCompletion A * UI * list ShellEffect.

#[global] Instance Sh_ret : MRet Sh := λ A a ui, (ShNormal a, ui, []).

#[global] Instance Sh_bind : MBind Sh := λ A B f m ui,
  match m ui with
  | (ShNormal a, ui1, out1) =>
      let '(c, ui2, out2) := f a ui1 in (c, ui2, out1 ++ out2)
  | (ShThrown e, ui1, out1) => (ShThrown e, ui1, out1)
  end.

Definition sh_throw {A} (e : ShellError) : Sh A := λ ui, (ShThrown e, ui, []).
Definition sh_emit (e : ShellEffect) : Sh unit := λ ui, (ShNormal (), ui, [e]).
Definition sh_get : Sh UI := λ ui, (ShNormal ui, ui, []).
Definition sh_modify (f : UI → UI) : Sh unit := λ ui, (ShNormal (), f ui, []).

Definition sh_try_catch {A} (m : Sh A) (h : ShellError → Sh A) : Sh A := λ ui,
  match m ui with
  | (ShNormal a, ui1, out1) => (ShNormal a, ui1, out1)
  | (ShThrown e, ui1, out1) =>
      let '(c, ui2, out2) := h e ui1 in (c, ui2, out1 ++ out2)
  end.

Definition sh_finally {A} (m : Sh A) (f : Sh unit) : Sh A := λ ui,
  let '(c, ui1, out1) := m ui in
  match f ui1 with
  | (ShNormal _, ui2, out2) => (c, ui2, out1 ++ out2)
  | (ShThrown e, ui2, out2) => (ShThrown e, ui2, out1 ++ out2)
  end.

Definition sh_when (b : bool) (m : Sh unit) : Sh unit :=
  if b then m else mret ().

Definition with_core (st : State) (ui : UI) : UI :=
  {| core := st; expoPushToken := expoPushToken ui;
     tokenRegistered := tokenRegistered ui;
     testingNotification := testingNotification ui |}.

(** A handler of the core run inside the whole component. The handlers
    of the core that are used this way catch what they throw. *)
Definition lift {A} (m : JS A) : Sh unit := λ ui,
  let '(st, out) := exec m (core ui) in (ShNormal (), with_core st ui, Core <$> out).

Definition sh_exec {A} (m : Sh A) (ui : UI) : UI * list ShellEffect :=
  let '(_, ui', out) := m ui in (ui', out).

(** The value a handler returns, [None] when it throws. *)
Definition sh_value {A} (m : Sh A) (ui : UI) : option A :=
  match m ui with
  | (ShNormal a, _, _) => Some a
  | (ShThrown _, _, _) => None
  end.

Definition console_log (line : string) : Sh unit := sh_emit (Core (ConsoleLog line)).
Definition console_error (line : string) : Sh unit := sh_emit (Core (ConsoleError line)).

(** [Alert.alert(title, text)]; the text is empty when only a title is
    given. *)
Definition alert (atitle atext : string) : Sh unit :=
  sh_emit (Core (AlertAlert atitle atext)).

Definition setExpoPushToken (t : option string) : Sh unit :=
  sh_modify (λ ui, {| core := core ui; expoPushToken := t;
                      tokenRegistered := tokenRegistered ui;
                      testingNotification := testingNotification ui |}).

Definition setTokenRegistered (b : bool) : Sh unit :=
  sh_modify (λ ui, {| core := core ui; expoPushToken := expoPushToken ui;
                      tokenRegistered := b;
                      testingNotification := testingNotification ui |}).

Definition setTestingNotification (b : bool) : Sh unit :=
  sh_modify (λ ui, {| core := core ui; expoPushToken := expoPushToken ui;
                      tokenRegistered := tokenRegistered ui;
                      testingNotification := b |}).

(** [await fetch(url, { method: 'POST', ... })] *)
Definition await_post (reply : PostReply) : Sh ApiBody :=
  match reply with
  | PostFailed => sh_throw FetchRejected
  | PostAnswered _ b => mret b
  end.

(** [await response.json()] on the reply to a POST: the parsed value,
    [None] for the JSON [null]. *)
Definition await_post_json (b : ApiBody) : Sh (option ApiResult) :=
  match b with
  | Unparseable => sh_throw BodyRejected
  | JsonNull => mret None
  | JsonValue r => mret (Some r)
  end.

(** [result.success]: reading a property of [null] throws. *)
Definition read_success (result : option ApiResult) : Sh ApiResult :=
  match result with
  | None => sh_throw NullHasNoProperty
  | Some r => mret r
  end.

Definition WEB_TEST_BODY : string :=
  "This is a test notification from the web app! (Push notifications don't work in browsers, but the API call succeeded)".

Definition MOBILE_TEST_BODY : string :=
  "This is a test notification from your mobile app!".

Section Shell.

(** [Platform.OS] and [BULL_QUEUE_SERVER] *)
Variable os : OS.
Variable server : string.

(** [registerForPushNotificationsAsync()], with [now] for [Date.now()].
    It reads and writes no state of the component. *)
Definition registerForPushNotificationsAsync (dev : Device) (now : Z) : Sh (option string) :=
  console_log "Starting push notification permission check..." ;;
  if os_isWeb os then
    console_log "Web mode detected, skipping native notifications" ;;
    mret None
  else
    sh_when (os_isAndroid os)
      (console_log "Configuring Android notification channel..." ;;
       sh_emit SetNotificationChannel) ;;
    console_log "Checking if device is physical:" ;;
    if isDevice dev then
      sh_emit GetPermissions ;;
      console_log "Current permission status:" ;;
      finalStatus ←
        (if bool_decide (existingStatus dev ≠ "granted") then
           console_log "Requesting permissions..." ;;
           sh_emit RequestPermissions ;;
           mret (requestedStatus dev)
         else mret (existingStatus dev));
      if bool_decide (finalStatus ≠ "granted") then
        console_log "Permissions denied" ;;
        alert "Failed to get push token for push notification!" "" ;;
        mret None
      else
        console_log "Fetching Expo Push Token..." ;;
        sh_try_catch
          (let projectId := default DEFAULT_PROJECT_ID (easProjectId dev) in
           console_log "Using projectId:" ;;
           sh_emit (GetExpoPushToken projectId) ;;
           match expoToken dev with
           | Some t => console_log "Token received:" ;; mret (Some t)
           | None => sh_throw TokenRejected
           end)
          (λ e,
             console_error "Error fetching push token:" ;;
             alert "Token Error"
               "Failed to get Expo push token. Are you logged into Expo?" ;;
             mret None)
    else
      console_log "Using emulator - falling back to dummy token" ;;
      mret (Some ("emulator-token-" +:+ modelName dev +:+ "-" +:+ pretty now)).

(** [registerWebDevice(token)] up to its first [await]. *)
Definition registerWebDevice_call (token : string) : Sh unit :=
  console_log "Registering web device with Bull Queue server..." ;;
  sh_emit (HttpPost (RegisterDevice token "web")).

(** [registerWebDevice] once the request settles. *)
Definition registerWebDevice_settle (reply : PostReply) : Sh unit :=
  sh_try_catch
    (b ← await_post reply;
     parsed ← await_post_json b;
     result ← read_success parsed;
     if api_success result then
       console_log "Web device registered successfully" ;;
       setTokenRegistered true
     else
       console_error "Failed to register web device:")
    (λ error,
       console_error "Network error registering web device:" ;;
       alert "Connection Error" "Could not connect to Bull Queue server").

(** [registerTokenWithBackend(token)] up to its first [await]. *)
Definition registerTokenWithBackend_call (token : string) : Sh unit :=
  console_log "Attempting to register token with backend:" ;;
  lift (setLoading true) ;;
  sh_emit (HttpPost (RegisterDevice token (os_name os))).

(** [registerTokenWithBackend] once the request settles: the rest of the
    [try] block, the [catch] and the [finally]. *)
Definition registerTokenWithBackend_settle (reply : PostReply) : Sh unit :=
  sh_finally
    (sh_try_catch
       (b ← await_post reply;
        console_log "Response received from backend:" ;;
        parsed ← await_post_json b;
        console_log "Backend response result:" ;;
        result ← read_success parsed;
        if api_success result then
          console_log "Device registered successfully with Bull Queue server" ;;
          console_log "   Device ID:" ;;
          setTokenRegistered true ;;
          alert "Success" "Device registered successfully!"
        else
          console_error "Failed to register device:" ;;
          alert "Registration Error"
            (or_default (api_error result) "Failed to register device"))
       (λ error,
          console_error "Network error registering device:" ;;
          alert "Connection Error"
            ("Could not reach backend at " +:+ server +:+ ". Check Wi-Fi/Firewall.")))
    (lift (setLoading false)).

(** The callback of [registerForPushNotificationsAsync().then(...)]. *)
Definition on_push_token (token : option string) : Sh unit :=
  setExpoPushToken token ;;
  match token with
  | Some t => sh_when (token_truthy token) (registerTokenWithBackend_call t)
  | None => mret ()
  end.

(** [sendTestNotification()] up to its first [await]. *)
Definition sendTestNotification_press : Sh unit :=
  ui ← sh_get;
  match expoPushToken ui with
  | Some t =>
      if token_truthy (Some t) then
        setTestingNotification true ;;
        console_log "Sending test notification via Bull Queue..." ;;
        sh_emit (HttpPost
                   (ImmediateMessage "SEPHealth Test"
                      (if os_isWeb os then WEB_TEST_BODY else MOBILE_TEST_BODY)
                      "Test"
                      (if includes "web-simulator" t then Null else Omitted)))
      else alert "Error" "No push token available"
  | None => alert "Error" "No push token available"
  end.

(** [sendTestNotification] once the POST settles. On success it calls
    [fetchMessages()] and waits for it: the [finally] block has not run
    yet and the handler returns [true]. *)
Definition sendTestNotification_posted (reply : PostReply) : Sh bool :=
  waiting ←
    sh_try_catch
      (b ← await_post reply;
       parsed ← await_post_json b;
       console_log "Test notification result:" ;;
       result ← read_success parsed;
       if api_success result then
         console_log "Test notification created successfully" ;;
         lift (fetchMessages_call false) ;;
         mret true
       else
         alert "Error" (or_default (api_error result) "Failed to send test notification") ;;
         mret false)
      (λ error,
         console_error "Error sending test notification:" ;;
         alert "Error"
           "Failed to send test notification. Make sure Bull Queue server is running." ;;
         mret false);
  sh_when (negb waiting) (setTestingNotification false) ;;
  mret waiting.

(** [result.results?.length || 1] *)
Definition created_count (result : ApiResult) : nat :=
  match api_results result with
  | Some (S n) => S n
  | _ => 1%nat
  end.

(** [sendTestNotification] once the fetch it waits for has settled:
    that settling, the dialog, and the [finally] block. *)
Definition sendTestNotification_refreshed (result : ApiResult) (net : Network) (now : Z) : Sh unit :=
  lift (fetchMessages_settle (os_isWeb os) false net now) ;;
  (if os_isWeb os then
     alert "Success!"
       ("Test notification created successfully!" +:+ newline +:+ newline
        +:+ "Created " +:+ pretty (N.of_nat (created_count result))
        +:+ " notification(s). Check the message list below.")
   else alert "Success" "Test notification sent via Bull Queue!") ;;
  setTestingNotification false.

(** The effect hook: the registration that can start at once, then what
    [mount] does. On a native platform the token arrives later. *)
Definition sh_mount (now : Z) : Sh unit :=
  (if os_isWeb os then
     let webToken := "web-simulator-token-" +:+ pretty now in
     setExpoPushToken (Some webToken) ;;
     registerWebDevice_call webToken
   else mret ()) ;;
  lift (mount (os_isWeb os)).

(** [disabled] of the Test button of the header. *)
Definition test_disabled (ui : UI) : bool :=
  negb (token_truthy (expoPushToken ui)) || testingNotification ui.

(** The events of the whole component. [registerForPushNotificationsAsync]
    awaits the platform only and touches no state, so it is run in one
    piece when its promise resolves, together with the [then] callback. *)
Inductive ShellEvent : Type :=
| SMount (now : Z)                              (* the effect hook runs *)
| SCore (ev : Event)                            (* an event of the core *)
| PushTokenResolved (dev : Device) (now : Z)    (* the token promise resolves *)
| WebRegistered (reply : PostReply)             (* registerWebDevice goes on *)
| BackendRegistered (reply : PostReply)         (* registerTokenWithBackend goes on *)
| TestPress                                     (* the Test button of the header *)
| TestPosted (reply : PostReply)                (* the test request settles *)
| TestRefreshed (result : ApiResult) (net : Network) (now : Z).
                                                (* the fetch after it settles *)

Definition sh_handle (ev : ShellEvent) : Sh unit :=
  match ev with
  | SMount now => sh_mount now
  | SCore ev => lift (handle (os_isWeb os) ev)
  | PushTokenResolved dev now =>
      token ← registerForPushNotificationsAsync dev now; on_push_token token
  | WebRegistered reply => registerWebDevice_settle reply
  | BackendRegistered reply => registerTokenWithBackend_settle reply
  | TestPress => sendTestNotification_press
  | TestPosted reply => sendTestNotification_posted reply ;; mret ()
  | TestRefreshed result net now => sendTestNotification_refreshed result net now
  end.

Fixpoint sh_run (evs : list ShellEvent) (ui : UI) : UI * list (ShellEvent * list ShellEffect) :=
  match evs with
  | [] => (ui, [])
  | ev :: evs' =>
      let '(ui1, out) := sh_exec (sh_handle ev) ui in
      let '(ui2, log) := sh_run evs' ui1 in
      (ui2, (ev, out) :: log)
  end.

End Shell.

(** ** Observations on the whole component *)

(** The effects of the core among the effects of a handler. *)
Definition core_effects (out : list ShellEffect) : list Effect :=
  omap (λ e, match e with Core c => Some c | _ => None end) out.

(** An [Alert.alert] dialog. *)
Definition is_alert (e : Effect) : bool :=
  match e with
  | AlertAlert _ _ => true
  | _ => false
  end.

(** How many dialogs an output opens. *)
Definition dialogs (out : list Effect) : nat :=
  length (List.filter is_alert out).

Definition is_post (e : ShellEffect) : bool :=
  match e with
  | HttpPost _ => true
  | _ => false
  end.

(** How many POST requests an output sends. *)
Definition posts (out : list ShellEffect) : nat :=
  length (List.filter is_post out).

(** A reply to a registration that makes the handler set
    [tokenRegistered]: a body that parses to a value with a truthy
    [success], whatever the status code. *)
Definition reply_success (reply : PostReply) : bool :=
  match reply with
  | PostAnswered _ (JsonValue r) => api_success r
  | _ => false
  end.

(** The steps of a run that complete a registration with success. *)
Definition registers (ev : ShellEvent) : bool :=
  match ev with
  | WebRegistered reply | BackendRegistered reply => reply_success reply
  | _ => false
  end.

(** The steps of a run in which the rest of [fetchMessages] runs. *)
Definition sh_from_fetch (ev : ShellEvent) : bool :=
  match ev with
  | SCore ev => from_fetch ev
  | TestRefreshed _ _ _ => true
  | _ => false
  end.

(** The notifications for one identity that the alert decision of
    [fetchMessages] scheduled during a run of the whole component. *)
Fixpoint sh_engine_alerts (id : string) (log : list (ShellEvent * list ShellEffect)) : nat :=
  match log with
  | [] => 0%nat
  | (ev, out) :: log' =>
      ((if sh_from_fetch ev then notified id (core_effects out) else 0)
       + sh_engine_alerts id log')%nat
  end.

(** The permission the registration ends with on a physical device. *)
Definition finalStatus (dev : Device) : string :=
  if bool_decide (existingStatus dev ≠ "granted") then requestedStatus dev
  else existingStatus dev.




(** The POST requests an output sends, in order. *)
Definition post_requests (out : list ShellEffect) : list Post :=
  omap (λ e, match e with HttpPost r => Some r | _ => None end) out.

(** A reply to a POST on which the [try] block throws: no reply, a body
    that is not JSON, or the JSON [null]. *)
Definition reply_throws (reply : PostReply) : bool :=
  match reply with
  | PostAnswered _ (JsonValue _) => false
  | _ => true
  end.

(** ** The addresses of the backend *)

Definition PUSH_MESSAGES_PATH : string := "/api/push-messages".

Definition DEFAULT_SERVER : string := "http://192.168.5.221:3001".

(** [s.slice(n)] *)
Fixpoint string_drop (n : nat) (s : string) : string :=
  match n, s with
  | O, _ => s
  | S n', String _ s' => string_drop n' s'
  | S _, EmptyString => EmptyString
  end.

(** [s.replace(pat, rep)] for a string [pat] and a replacement without
    dollar patterns: the first occurrence of [pat] is replaced. *)
Fixpoint replace_first (pat rep s : string) : string :=
  if String.prefix pat s then rep +:+ string_drop (String.length pat) s
  else match s with
       | EmptyString => EmptyString
       | String c s' => String c (replace_first pat rep s')
       end.

(** [s.indexOf(pat)], with [None] for -1. *)
Fixpoint index_of (pat s : string) : option nat :=
  if String.prefix pat s then Some O
  else match s with
       | EmptyString => None
       | String _ s' => S <$> index_of pat s'
       end.

(** [process.env.EXPO_PUBLIC_PUSH_API_ENDPOINT?.replace('/api/push-messages', '')
     || 'http://192.168.5.221:3001'], for the value [env] of the variable. *)
Definition BULL_QUEUE_SERVER (env : option string) : string :=
  or_default (replace_first PUSH_MESSAGES_PATH "" <$> env) DEFAULT_SERVER.

Definition API_ENDPOINT (env : option string) : string :=
  BULL_QUEUE_SERVER env +:+ PUSH_MESSAGES_PATH.

Definition DEVICE_REGISTER_ENDPOINT (env : option string) : string :=
  BULL_QUEUE_SERVER env +:+ "/api/device/register".

(** ** Basic facts *)

Lemma notified_app id (o1 o2 : list Effect) :
  notified id (o1 ++ o2) = (notified id o1 + notified id o2)%nat.
Proof. unfold notified. now rewrite List.filter_app, length_app. Qed.

Lemma engine_alerts_app id (l1 l2 : list (Event * list Effect)) :
  engine_alerts id (l1 ++ l2) = (engine_alerts id l1 + engine_alerts id l2)%nat.
Proof.
  induction l1 as [|[ev out] l1 IH]; simpl; [done|].
  rewrite IH. lia.
Qed.

Lemma run_app isWeb (e1 e2 : list Event) st :
  run isWeb (e1 ++ e2) st =
  let '(st1, log1) := run isWeb e1 st in
  let '(st2, log2) := run isWeb e2 st1 in
  (st2, log1 ++ log2).
Proof.
  revert st. induction e1 as [|ev e1 IH]; intros st; simpl.
  - now destruct (run isWeb e2 st).
  - destruct (exec (handle isWeb ev) st) as [st1 out].
    rewrite IH. destruct (run isWeb e1 st1) as [st2 log1].
    now destruct (run isWeb e2 st2).
Qed.

Lemma with_shown_same st : with_shown (shownNotifications st) st = st.
Proof. now destruct st. Qed.

Lemma date_gt_spec (a : option Z) (b : Z) :
  date_gt a (Some b) = true ↔ ∃ t, a = Some t ∧ b < t.
Proof.
  destruct a as [t|]; simpl.
  - rewrite bool_decide_eq_true. split; [eauto|]. now intros (t' & [= ->] & H).
  - split; [done|]. now intros (t' & [=] & _).
Qed.

Lemma due_spec now seen msg :
  due now seen msg = true ↔
  status msg = "Sent" ∧ (_id msg ∉ seen) ∧
  ∃ t, sentAt msg = Some t ∧ now - TWO_MINUTES < t.
Proof.
  unfold due, recent.
  rewrite !andb_true_iff, negb_true_iff, bool_decide_eq_true,
    bool_decide_eq_false, date_gt_spec. tauto.
Qed.

(** ** The two loops of [fetchMessages] *)

Lemma sendNotificationFromMessage_run isWeb m st :
  sendNotificationFromMessage isWeb m st = (Normal (), st, [present isWeb m]).
Proof. unfold sendNotificationFromMessage, present. now destruct isWeb. Qed.

Lemma mark_if_sent_run m st :
  mark_if_sent m st =
  (Normal (),
   if bool_decide (status m = "Sent")
   then with_shown ({[ _id m ]} ∪ shownNotifications st) st else st,
   []).
Proof. unfold mark_if_sent. now destruct (bool_decide _). Qed.

Lemma sent_ids_cons m l :
  sent_ids (m :: l) =
  if bool_decide (status m = "Sent") then {[ _id m ]} ∪ sent_ids l else sent_ids l.
Proof. unfold sent_ids. simpl. now destruct (bool_decide _). Qed.

Lemma forEach_mark l st :
  forEach l mark_if_sent st =
  (Normal (), with_shown (sent_ids l ∪ shownNotifications st) st, []).
Proof.
  revert st. induction l as [|m l IH]; intros st.
  - simpl. unfold mret, JS_ret. do 2 f_equal.
    rewrite <- (with_shown_same st) at 1. f_equal.
    unfold sent_ids. simpl. set_solver.
  - cbn [forEach]. unfold mbind, JS_bind at 1.
    rewrite mark_if_sent_run, IH, sent_ids_cons.
    destruct (bool_decide (status m = "Sent")); simpl; [|done].
    do 2 f_equal. unfold with_shown. simpl. f_equal. set_solver.
Qed.

Lemma alert_if_new_run isWeb now msg st :
  alert_if_new isWeb (Some (now - TWO_MINUTES)) msg st =
  if due now (shownNotifications st) msg
  then (Normal (), with_shown ({[ _id msg ]} ∪ shownNotifications st) st,
        alert_output isWeb msg)
  else (Normal (), st, []).
Proof.
  unfold alert_if_new, due, recent, alert_output.
  unfold mbind, JS_bind, shown_has, get, mret, JS_ret. simpl.
  destruct (_ && _ && _); simpl; [|done].
  now rewrite sendNotificationFromMessage_run.
Qed.

Lemma forEach_alert isWeb now l st :
  forEach l (alert_if_new isWeb (Some (now - TWO_MINUTES))) st =
  let fired := alerts_of now (shownNotifications st) l in
  (Normal (),
   with_shown (list_to_set (map _id fired) ∪ shownNotifications st) st,
   concat (map (alert_output isWeb) fired)).
Proof.
  revert st. induction l as [|m l IH]; intros st.
  - simpl. unfold mret, JS_ret. do 2 f_equal.
    rewrite <- (with_shown_same st) at 1. f_equal. set_solver.
  - cbn [forEach alerts_of]. unfold mbind, JS_bind at 1.
    rewrite alert_if_new_run.
    destruct (due now (shownNotifications st) m); rewrite IH; simpl; [|done].
    do 2 f_equal. unfold with_shown. simpl. f_equal. set_solver.
Qed.

(** ** [fetchMessages] case by case *)

Ltac js_unfold :=
  unfold fetchMessages_settle, fetchMessages_call, on_statusUpdate, onRefresh, mount,
    finally, try_catch, await_fetch, await_json, when, exec,
    setMessages, setMessages_with, setLoading, setRefreshing, shown_add,
    shown_has, modify, get, emit, throw, mbind, JS_bind, mret, JS_ret.

Lemma net_cases net :
  fetch_fails net ∨ (∃ l, delivers net l) ∨ ignored net.
Proof.
  destruct net as [|a r]; [left; constructor|].
  destruct (decide (a < FETCH_TIMEOUT)) as [Ha|Ha];
    [|left; apply fails_timeout; lia].
  destruct (ok r) eqn:Hok; [|left; now apply fails_status].
  destruct (json r) as [res|] eqn:Hj; [|left; now apply fails_body].
  destruct res as [[] [l|] | items].
  - right; left. exists l. now constructor.
  - right; right. econstructor; eauto.
  - right; right. econstructor; eauto.
  - right; right. econstructor; eauto.
  - right; right. econstructor; eauto.
Qed.

Lemma settle_fails isWeb isPoll net now st :
  fetch_fails net →
  exec (fetchMessages_settle isWeb isPoll net now) st =
  (settle_flags isPoll st,
   if isPoll then []
   else [ConsoleError "Error fetching messages:";
         AlertAlert "Connection Error" "Could not connect to Bull Queue server."]).
Proof.
  intros Hf. destruct st as [ms sh lo re].
  destruct Hf as [|a r Ha|a r Hok|a r Hj]; js_unfold; simpl.
  - now destruct isPoll.
  - rewrite bool_decide_eq_false_2 by lia. now destruct isPoll.
  - destruct (bool_decide _); rewrite ?Hok; now destruct isPoll.
  - destruct (bool_decide _); [|now destruct isPoll].
    destruct (ok r); simpl; rewrite ?Hj; now destruct isPoll.
Qed.

Lemma settle_ignored isWeb isPoll net now st :
  ignored net →
  exec (fetchMessages_settle isWeb isPoll net now) st =
  (settle_flags isPoll st,
   if isPoll then [] else [ConsoleLog "Messages response:"]).
Proof.
  intros Hi. destruct st as [ms sh lo re].
  destruct Hi as [a r res Ha Hok Hj Hres]; js_unfold; simpl.
  rewrite bool_decide_eq_true_2 by done. rewrite Hok. simpl. rewrite Hj.
  destruct res as [s d|items]; simpl in *.
  - destruct Hres as [-> | ->]; [|destruct s]; now destruct isPoll.
  - now destruct isPoll.
Qed.

(** A user-initiated fetch that succeeds: the store is replaced, every
    [Sent] identity joins the ledger, and the spinners are reset. *)
Lemma settle_user isWeb net now l st :
  delivers net l →
  exec (fetchMessages_settle isWeb false net now) st =
  ({| messages := l; shownNotifications := sent_ids l ∪ shownNotifications st;
      loading := false; refreshing := false |},
   [ConsoleLog "Messages response:";
    ConsoleLog "Initialized: messages marked as seen."]).
Proof.
  intros Hd. destruct st as [ms sh lo re].
  destruct Hd as [a r l Ha Hok Hj]. js_unfold; simpl.
  rewrite bool_decide_eq_true_2 by done. rewrite Hok. simpl. rewrite Hj. simpl.
  rewrite forEach_mark. simpl. now destruct isWeb.
Qed.

(** A background fetch that succeeds on a native platform. *)
Lemma settle_poll_native net now l st :
  delivers net l →
  exec (fetchMessages_settle false true net now) st =
  let fired := alerts_of now (shownNotifications st) l in
  ({| messages := l;
      shownNotifications := list_to_set (map _id fired) ∪ shownNotifications st;
      loading := loading st; refreshing := refreshing st |},
   concat (map (alert_output false) fired)).
Proof.
  intros Hd. destruct st as [ms sh lo re].
  destruct Hd as [a r l Ha Hok Hj]. js_unfold; simpl.
  rewrite bool_decide_eq_true_2 by done. rewrite Hok. simpl. rewrite Hj. simpl.
  rewrite forEach_alert. simpl. now rewrite app_nil_r.
Qed.

(** A background fetch that succeeds in the browser: the store is
    replaced and that is all. *)
Lemma settle_poll_web net now l st :
  delivers net l →
  exec (fetchMessages_settle true true net now) st = (with_messages l st, []).
Proof.
  intros Hd. destruct st as [ms sh lo re].
  destruct Hd as [a r l Ha Hok Hj]. js_unfold; simpl.
  rewrite bool_decide_eq_true_2 by done. rewrite Hok. simpl. now rewrite Hj.
Qed.

Lemma ok_reply_delivers after_ms l :
  after_ms < FETCH_TIMEOUT → delivers (ok_reply after_ms l) l.
Proof. intros H. now constructor. Qed.

(** ** The alert decision, identity by identity *)

Lemma notified_alert_outputs id (fired : list Message) :
  notified id (concat (map (alert_output false) fired)) =
  length (List.filter (λ m, bool_decide (_id m = id)) fired).
Proof.
  induction fired as [|m fired IH]; [done|].
  cbn [map concat]. rewrite notified_app, IH.
  unfold notified at 1. simpl.
  now destruct (bool_decide (_id m = id)).
Qed.

Lemma wanted_due now seen id m :
  _id m = id → id ∉ seen → wanted now id m = due now seen m.
Proof.
  intros <- Hn. unfold wanted, due.
  rewrite (bool_decide_eq_true_2 (_id m = _id m)) by done.
  rewrite (bool_decide_eq_false_2 (_id m ∈ seen)) by done.
  now destruct (bool_decide _), (recent now m).
Qed.

Lemma wanted_other now id m : _id m ≠ id → wanted now id m = false.
Proof. intros H. unfold wanted. now rewrite (bool_decide_eq_false_2 _ H). Qed.

(** The loop alerts at most once for an identity: never when the ledger
    holds it, and otherwise once exactly when some message of the result
    carries it with status [Sent] and a recent time. *)
Lemma alerts_of_count now id l : ∀ seen,
  length (List.filter (λ m, bool_decide (_id m = id)) (alerts_of now seen l)) =
  if bool_decide (id ∈ seen) then 0%nat
  else if existsb (wanted now id) l then 1%nat else 0%nat.
Proof.
  induction l as [|m l IH]; intros seen.
  - simpl. now destruct (bool_decide _).
  - cbn [alerts_of existsb].
    destruct (decide (id ∈ seen)) as [Hin|Hin].
    + rewrite (bool_decide_eq_true_2 _ Hin).
      destruct (due now seen m) eqn:Hd.
      * cbn [List.filter]. destruct (decide (_id m = id)) as [He|He].
        -- apply due_spec in Hd as (_ & Hn & _). now subst id.
        -- rewrite (bool_decide_eq_false_2 _ He), IH.
           rewrite bool_decide_eq_true_2; [done|set_solver].
      * rewrite IH. now rewrite (bool_decide_eq_true_2 _ Hin).
    + rewrite (bool_decide_eq_false_2 _ Hin).
      destruct (decide (_id m = id)) as [He|He].
      * rewrite (wanted_due now seen id m He Hin).
        destruct (due now seen m) eqn:Hd; simpl.
        -- rewrite (bool_decide_eq_true_2 _ He). simpl. rewrite IH.
           rewrite bool_decide_eq_true_2; [done|set_solver].
        -- rewrite IH. now rewrite (bool_decide_eq_false_2 _ Hin).
      * rewrite (wanted_other now id m He). simpl.
        destruct (due now seen m); simpl.
        -- rewrite (bool_decide_eq_false_2 _ He), IH.
           rewrite bool_decide_eq_false_2; [done|set_solver].
        -- rewrite IH. now rewrite (bool_decide_eq_false_2 _ Hin).
Qed.

Lemma alerts_of_member id (fired : list Message) :
  (0 < length (List.filter (λ m, bool_decide (_id m = id)) fired))%nat →
  id ∈ (list_to_set (map _id fired) : gset string).
Proof.
  induction fired as [|m fired IH]; simpl; [lia|].
  destruct (decide (_id m = id)) as [He|He].
  - intros _. set_solver.
  - rewrite (bool_decide_eq_false_2 _ He). intros H. set_solver.
Qed.

(** ** One step, then a whole run *)

Lemma engine_alerts_cons id ev out log :
  engine_alerts id ((ev, out) :: log) =
  (engine_count id ev out + engine_alerts id log)%nat.
Proof. reflexivity. Qed.

Lemma handle_step isWeb ev st id :
  let st' := (exec (handle isWeb ev) st).1 in
  let n := engine_count id ev (exec (handle isWeb ev) st).2 in
  shownNotifications st ⊆ shownNotifications st' ∧
  (n ≤ 1)%nat ∧
  (id ∈ shownNotifications st → n = 0%nat) ∧
  (n = 1%nat → id ∈ shownNotifications st').
Proof.
  destruct ev as [| | |u|m|isPoll net now]; cbn [handle].
  1-5: destruct st as [ms sh lo re]; unfold engine_count; cbn [from_fetch].
  - js_unfold; destruct isWeb; simpl; split_and!; try done; try lia.
  - js_unfold; simpl. split_and!; try done; try lia.
  - js_unfold; simpl. split_and!; try done; try lia.
  - js_unfold; simpl. destruct (_ && _); simpl; split_and!; try done; try lia.
  - unfold exec. rewrite sendNotificationFromMessage_run. simpl.
    split_and!; try done; try lia.
  - unfold engine_count; cbn [from_fetch].
    destruct (net_cases net) as [Hf|[[l Hd]|Hi]].
    + rewrite settle_fails by done.
      destruct st as [ms sh lo re], isPoll; unfold notified; simpl;
        split_and!; try done; try lia.
    + destruct isPoll; [destruct isWeb|].
      * rewrite (settle_poll_web _ _ l) by done.
        destruct st as [ms sh lo re]; unfold notified; simpl.
        split_and!; try done; try lia.
      * rewrite (settle_poll_native _ _ l) by done. cbn [fst snd].
        rewrite notified_alert_outputs.
        pose proof (alerts_of_count now id l (shownNotifications st)) as Hc.
        pose proof (alerts_of_member id (alerts_of now (shownNotifications st) l)) as Hm.
        cbn [shownNotifications].
        split_and!.
        -- set_solver.
        -- rewrite Hc. repeat case_match; lia.
        -- intros Hin. rewrite Hc. now rewrite (bool_decide_eq_true_2 _ Hin).
        -- intros H1. apply elem_of_union_l, Hm. lia.
      * rewrite (settle_user _ _ _ l) by done. unfold notified. simpl.
        split_and!; try lia; try set_solver.
    + rewrite settle_ignored by done.
      destruct st as [ms sh lo re], isPoll; unfold notified; simpl;
        split_and!; try done; try lia.
Qed.

(** Along every run the ledger only grows, the alert decision schedules
    at most one notification per identity, none for an identity the
    ledger already holds, and an alerted identity ends up in the ledger. *)
Lemma run_invariant isWeb id evs : ∀ st,
  let st' := (run isWeb evs st).1 in
  let n := engine_alerts id (run isWeb evs st).2 in
  shownNotifications st ⊆ shownNotifications st' ∧
  (n ≤ 1)%nat ∧
  (id ∈ shownNotifications st → n = 0%nat) ∧
  (n = 1%nat → id ∈ shownNotifications st').
Proof.
  induction evs as [|ev evs IH]; intros st.
  - simpl. split_and!; try done; try lia.
  - cbn [run].
    pose proof (handle_step isWeb ev st id) as Hs.
    destruct (exec (handle isWeb ev) st) as [st1 out].
    specialize (IH st1).
    destruct (run isWeb evs st1) as [st2 log].
    cbn [fst snd] in *. rewrite engine_alerts_cons.
    destruct Hs as (Hs1 & Hs2 & Hs3 & Hs4), IH as (I1 & I2 & I3 & I4).
    split_and!.
    + set_solver.
    + destruct (decide (engine_count id ev out = 1%nat)) as [E|E].
      * rewrite I3 by auto. lia.
      * lia.
    + intros Hin. rewrite Hs3 by done. rewrite I3; [done|set_solver].
    + intros Hn. destruct (decide (engine_count id ev out = 1%nat)) as [E|E].
      * apply I1. auto.
      * apply I4. lia.
Qed.

Lemma wanted_member now m (l : list Message) :
  m ∈ l → status m = "Sent" → recent now m = true →
  existsb (wanted now (_id m)) l = true.
Proof.
  intros Hin Hs Hr. apply existsb_exists. exists m. split.
  - now apply list_elem_of_In.
  - unfold wanted. now rewrite !bool_decide_eq_true_2, Hr.
Qed.

Lemma run_cons isWeb ev evs st :
  run isWeb (ev :: evs) st =
  ((run isWeb evs (exec (handle isWeb ev) st).1).1,
   (ev, (exec (handle isWeb ev) st).2) :: (run isWeb evs (exec (handle isWeb ev) st).1).2).
Proof.
  cbn [run]. destruct (exec (handle isWeb ev) st) as [st1 out]. cbn [fst snd].
  destruct (run isWeb evs st1); reflexivity.
Qed.

(** A background fetch on a native platform schedules exactly one
    notification for a [Sent], recent message the ledger does not hold. *)
Lemma settle_alerts_new net now l st m :
  delivers net l → m ∈ l → status m = "Sent" →
  _id m ∉ shownNotifications st → recent now m = true →
  notified (_id m) (exec (fetchMessages_settle false true net now) st).2 = 1%nat.
Proof.
  intros Hd Hin Hs Hn Hr.
  rewrite (settle_poll_native _ _ l) by done. cbn [snd].
  rewrite notified_alert_outputs, alerts_of_count.
  rewrite (bool_decide_eq_false_2 _ Hn).
  now rewrite wanted_member.
Qed.

(** ** Further facts used by the claims *)

Lemma sent_ids_member m (l : list Message) :
  m ∈ l → status m = "Sent" → _id m ∈ sent_ids l.
Proof.
  intros Hin Hs. unfold sent_ids. apply elem_of_list_to_set, list_elem_of_In.
  apply in_map, filter_In. split; [now apply list_elem_of_In|].
  now apply bool_decide_eq_true_2.
Qed.

Lemma call_run isPoll st :
  exec (fetchMessages_call isPoll) st =
  (if isPoll then st
   else {| messages := messages st; shownNotifications := shownNotifications st;
           loading := true; refreshing := refreshing st |},
   if isPoll then [HttpGet true]
   else [ConsoleLog "Fetching messages from:"; HttpGet false]).
Proof. destruct st, isPoll; reflexivity. Qed.

Lemma mount_run isWeb st :
  exec (mount isWeb) st =
  ({| messages := messages st; shownNotifications := shownNotifications st;
      loading := true; refreshing := refreshing st |},
   [ConsoleLog "Fetching messages from:"; HttpGet false] ++
   if isWeb then []
   else [ConsoleLog "Starting auto-polling for Sent messages (60s interval)...";
         SetInterval POLL_INTERVAL]).
Proof. destruct st, isWeb; reflexivity. Qed.

(** The polling timer exists on a native platform only. *)
Lemma poll_timer_native_only isWeb st :
  SetInterval POLL_INTERVAL ∈ (exec (mount isWeb) st).2 ↔ isWeb = false.
Proof.
  rewrite mount_run. cbn [snd]. destruct isWeb; split; try done.
  - intros H. apply list_elem_of_In in H. simpl in H. intuition discriminate.
  - intros _. set_solver.
Qed.

(** A user-initiated fetch shows no alert, whatever comes back. *)
Lemma settle_user_quiet isWeb net now st :
  presented (exec (fetchMessages_settle isWeb false net now) st).2 = 0%nat.
Proof.
  destruct (net_cases net) as [Hf|[[l Hd]|Hi]].
  - now rewrite settle_fails.
  - now rewrite (settle_user _ _ _ l).
  - now rewrite settle_ignored.
Qed.

Lemma settle_messages isWeb isPoll net now l st :
  delivers net l →
  messages (exec (fetchMessages_settle isWeb isPoll net now) st).1 = l.
Proof.
  intros Hd. destruct isPoll; [destruct isWeb|].
  - now rewrite (settle_poll_web _ _ l).
  - now rewrite (settle_poll_native _ _ l).
  - now rewrite (settle_user _ _ _ l).
Qed.

Lemma forEach_app {A} (f : A → JS unit) (l1 l2 : list A) : ∀ st,
  forEach (l1 ++ l2) f st = (forEach l1 f ;; forEach l2 f) st.
Proof.
  induction l1 as [|x l1 IH]; intros st.
  - cbn [app forEach]. unfold mbind, JS_bind, mret, JS_ret.
    now destruct (forEach l2 f st) as [[c st2] out2].
  - cbn [app forEach]. unfold mbind, JS_bind in *.
    destruct (f x st) as [[[[]|e] st1] out1]; [|done].
    rewrite IH.
    destruct (forEach l1 f st1) as [[[[]|e] st2] out2]; [|done].
    destruct (forEach l2 f st2) as [[c st3] out3].
    now rewrite app_assoc.
Qed.

Lemma examine_split now (pre post : list Message) m st :
  let examine := alert_if_new false (Some (now - TWO_MINUTES)) in
  let before := exec (forEach pre examine) st in
  let at_m := exec (examine m) before.1 in
  let after := exec (forEach post examine) at_m.1 in
  exec (forEach (pre ++ m :: post) examine) st =
  (after.1, before.2 ++ at_m.2 ++ after.2).
Proof.
  intros examine before at_m after.
  subst before at_m after. unfold exec.
  rewrite forEach_app. unfold mbind, JS_bind. cbn [forEach].
  unfold mbind, JS_bind. subst examine.
  rewrite (forEach_alert false now pre st). cbn [fst snd].
  rewrite alert_if_new_run.
  destruct (due now _ m); rewrite !forEach_alert; cbn [fst snd];
    now rewrite ?app_nil_r.
Qed.

Lemma settle_poll_native_loop net now l st :
  delivers net l →
  exec (fetchMessages_settle false true net now) st =
  exec (forEach l (alert_if_new false (Some (now - TWO_MINUTES))))
    (with_messages l st).
Proof.
  intros Hd. rewrite (settle_poll_native _ _ l) by done.
  unfold exec. now rewrite forEach_alert.
Qed.

Lemma fired_member id (fired : list Message) :
  id ∈ (list_to_set (map _id fired) : gset string) →
  (0 < notified id (concat (map (alert_output false) fired)))%nat.
Proof.
  rewrite notified_alert_outputs.
  induction fired as [|m fired IH]; simpl; [set_solver|].
  destruct (decide (_id m = id)) as [He|He].
  - rewrite (bool_decide_eq_true_2 _ He). simpl. lia.
  - rewrite (bool_decide_eq_false_2 _ He). intros H. apply IH. set_solver.
Qed.

Lemma applyPartial_lookup u (prev : list Message) i :
  applyPartial u prev !! i =
  (λ msg, if bool_decide (_id msg = Update.messageId u) then patch u msg else msg)
    <$> prev !! i.
Proof.
  revert i. induction prev as [|m prev IH]; intros [|i]; cbn; auto.
Qed.

Lemma applyPartial_absent u (prev : list Message) :
  (∀ m, m ∈ prev → _id m ≠ Update.messageId u) → applyPartial u prev = prev.
Proof.
  induction prev as [|m prev IH]; intros H; [done|].
  cbn. rewrite bool_decide_eq_false_2 by (apply H; left).
  f_equal. apply IH. intros m' Hm'. apply H. now right.
Qed.

Lemma run_previews isWeb m n st :
  run isWeb (replicate n (Preview m)) st =
  (st, replicate n (Preview m, [present isWeb m])).
Proof.
  induction n as [|n IH]; [done|].
  cbn [replicate]. rewrite run_cons. cbn [handle].
  unfold exec at 1 2 3. rewrite sendNotificationFromMessage_run. cbn [fst snd].
  now rewrite IH.
Qed.

(** ** Results with distinct identities *)

Lemma distinct_ids_eq (l : list Message) m m' :
  NoDup (_id <$> l) → m ∈ l → m' ∈ l → _id m = _id m' → m = m'.
Proof.
  intros Hnd [i Hi]%list_elem_of_lookup [j Hj]%list_elem_of_lookup He.
  assert (i = j) as ->.
  { apply (NoDup_lookup (_id <$> l) i j (_id m) Hnd).
    - now rewrite list_lookup_fmap, Hi.
    - now rewrite list_lookup_fmap, Hj, He. }
  congruence.
Qed.

Lemma alerts_of_due now m (l : list Message) : ∀ seen,
  NoDup (_id <$> l) → m ∈ l → due now seen m = true →
  m ∈ alerts_of now seen l.
Proof.
  induction l as [|x l IH]; intros seen Hnd Hin Hdue.
  - now apply not_elem_of_nil in Hin.
  - apply NoDup_cons in Hnd as [Hx Hnd]. cbn [alerts_of].
    apply elem_of_cons in Hin as [->|Hin].
    + rewrite Hdue. left.
    + assert (Hne : _id m ≠ _id x).
      { intros He. apply Hx. rewrite <- He.
        apply list_elem_of_fmap. now exists m. }
      destruct (due now seen x); [right|]; apply IH; try done.
      apply due_spec in Hdue as (Hs & Hn & Ht).
      apply due_spec. split_and!; [done| |done]. set_solver.
Qed.

Lemma present_notified m (out : list Effect) :
  present false m ∈ out → (0 < notified (_id m) out)%nat.
Proof.
  induction out as [|e out IH]; intros Hin.
  - now apply not_elem_of_nil in Hin.
  - unfold notified in *. apply elem_of_cons in Hin as [<-|Hin].
    + cbn. rewrite bool_decide_eq_true_2 by done. simpl. lia.
    + cbn [List.filter]. destruct (is_notification_for _ e); simpl; [lia|auto].
Qed.

(** X13. When the identities of the result are distinct, the ledger a
    message meets is the ledger at the start of the step: a background
    fetch on a native platform alerts for a message of its result exactly
    when the message is [Sent], unseen at the start and recent. *)
Lemma background_alert_distinct st net now (l : list Message) m :
  delivers net l → NoDup (_id <$> l) → m ∈ l →
  present false m ∈ (exec (fetchMessages_settle false true net now) st).2 ↔
  status m = "Sent" ∧ (_id m ∉ shownNotifications st) ∧
  ∃ t, sentAt m = Some t ∧ now - TWO_MINUTES < t.
Proof.
  intros Hd Hnd Hin. rewrite <- due_spec.
  rewrite (settle_poll_native _ _ l) by done. cbn [snd]. split.
  - intros Hp%present_notified.
    rewrite notified_alert_outputs, alerts_of_count in Hp.
    destruct (decide (_id m ∈ shownNotifications st)) as [Hs|Hs].
    { rewrite (bool_decide_eq_true_2 _ Hs) in Hp. lia. }
    rewrite (bool_decide_eq_false_2 _ Hs) in Hp.
    destruct (existsb _ l) eqn:Hex; [|lia].
    apply existsb_exists in Hex as (m' & Hin' & Hw).
    apply list_elem_of_In in Hin'.
    unfold wanted in Hw. apply andb_true_iff in Hw as [Hw Hr].
    apply andb_true_iff in Hw as [Hi%bool_decide_eq_true Hst%bool_decide_eq_true].
    assert (m' = m) as -> by now apply (distinct_ids_eq l).
    unfold due. rewrite Hr, (bool_decide_eq_true_2 _ Hst).
    now rewrite (bool_decide_eq_false_2 _ Hs).
  - intros Hdue.
    pose proof (alerts_of_due now m l (shownNotifications st) Hnd Hin Hdue) as Hm.
    induction (alerts_of now (shownNotifications st) l) as [|x fired IH].
    + now apply not_elem_of_nil in Hm.
    + cbn [map concat]. apply elem_of_app.
      apply elem_of_cons in Hm as [<-|Hm]; [left|right; auto].
      unfold alert_output. set_solver.
Qed.

(** The scenario of the cold start followed by a realtime event: the
    first fetch returns [a] and alerts for nothing; an event announces
    [b]; the fetch it triggers returns [a] and [b], forty seconds after
    [a] was updated and ten seconds after [b] was delivered; one alert is
    scheduled, for [b]. *)
Example cold_start_then_realtime :
  let a := sample "a" "Sent" TsAbsent (TsDate 1000000) in
  let b := sample "b" "Sent" (TsDate 1030000) (TsDate 1030000) in
  let u := {| Update.messageId := "b"; Update.status := "Sent";
              Update.deliveredAt := TsDate 1030000 |} in
  all_output
    (run false [Mount; Settled false (ok_reply 35 [a]) 1000500;
                StatusUpdate u; Settled true (ok_reply 60 [a; b]) 1040000]
       initial).2 =
  [ConsoleLog "Fetching messages from:"; HttpGet false;
   ConsoleLog "Starting auto-polling for Sent messages (60s interval)...";
   SetInterval 60000;
   ConsoleLog "Messages response:";
   ConsoleLog "Initialized: messages marked as seen.";
   ConsoleLog "Real-time update received:";
   ConsoleLog "Status changed to Sent, triggering immediate content fetch...";
   HttpGet true;
   ConsoleLog "Polling found new Sent message, triggering local alert:";
   ScheduleNotification "Reminder" (Some "Take your medication") "b"].
Proof. vm_compute. reflexivity. Qed.

(** A manual refresh that returns a new [Sent] message delivered at the
    very time of the decision: the store takes it, the ledger takes its
    identity, and no alert is shown. *)
Example refresh_with_new_message :
  let m := sample "fresh" "Sent" (TsDate 5000000) (TsDate 5000000) in
  all_output (run false [Refresh; Settled false (ok_reply 20 [m]) 5000000] initial).2 =
  [ConsoleLog "Fetching messages from:"; HttpGet false;
   ConsoleLog "Messages response:";
   ConsoleLog "Initialized: messages marked as seen."].
Proof. vm_compute. reflexivity. Qed.

(** ** Claims *)

(** C1. For every identity the alert decision of [fetchMessages]
    schedules at most one notification in a whole run of the component,
    on either platform and from any state. And on a native platform (the
    only one where the polling timer is installed), when a message with
    status [Sent] whose identity the ledger does not hold yet is returned
    by two background fetches, both deciding while the message is within
    the two-minute window, exactly one notification is scheduled for it:
    the first settle schedules it and adds the identity to the ledger, and
    neither the second settle nor anything that runs in between schedules
    another. *)
Theorem alert_at_most_once :
  (∀ isWeb evs st id, (engine_alerts id (run isWeb evs st).2 ≤ 1)%nat) ∧
  (∀ st net1 now1 l1 net2 now2 l2 between m,
     delivers net1 l1 → delivers net2 l2 →
     m ∈ l1 → m ∈ l2 → status m = "Sent" →
     _id m ∉ shownNotifications st →
     recent now1 m = true → recent now2 m = true →
     notified (_id m) (exec (fetchMessages_settle false true net1 now1) st).2 = 1%nat ∧
     _id m ∈ shownNotifications (exec (fetchMessages_settle false true net1 now1) st).1 ∧
     engine_alerts (_id m)
       (run false (Settled true net1 now1 :: between ++ [Settled true net2 now2]) st).2
     = 1%nat).
Proof.
  split.
  - intros isWeb evs st id. apply (run_invariant isWeb id evs st).
  - intros st net1 now1 l1 net2 now2 l2 between m Hd1 Hd2 Hin1 Hin2 Hs Hn Hr1 Hr2.
    assert (H1 : notified (_id m)
                   (exec (fetchMessages_settle false true net1 now1) st).2 = 1%nat).
    { now apply (settle_alerts_new net1 now1 l1). }
    assert (H2 : _id m ∈ shownNotifications
                   (exec (fetchMessages_settle false true net1 now1) st).1).
    { pose proof (handle_step false (Settled true net1 now1) st (_id m)) as Hh.
      cbn [handle] in Hh. apply Hh. exact H1. }
    split_and!; [done..|].
    rewrite run_cons. cbn [snd handle]. rewrite engine_alerts_cons.
    unfold engine_count. cbn [from_fetch]. rewrite H1.
    pose proof (run_invariant false (_id m) (between ++ [Settled true net2 now2])
                  (exec (fetchMessages_settle false true net1 now1) st).1) as Hi.
    destruct Hi as (_ & _ & Hz & _). now rewrite Hz.
Qed.

Lemma alert_at_most_once_witness :
  let m := sample "m1" "Sent" (TsDate 90000) (TsDate 80000) in
  engine_alerts "m1"
    (run false (Settled true (ok_reply 120 [m]) 100000
                :: [PollTick] ++ [Settled true (ok_reply 300 [m]) 130000]) initial).2
  = 1%nat.
Proof.
  intros m.
  apply (proj2 alert_at_most_once initial (ok_reply 120 [m]) 100000 [m]
           (ok_reply 300 [m]) 130000 [m] [PollTick] m).
  - apply ok_reply_delivers. reflexivity.
  - apply ok_reply_delivers. reflexivity.
  - apply list_elem_of_here.
  - apply list_elem_of_here.
  - reflexivity.
  - apply not_elem_of_empty.
  - reflexivity.
  - reflexivity.
Defined.

(** C2. Cold start: the first fetch of the process is the one the effect
    hook starts on mount, a call of [fetchMessages] with no argument.
    When it succeeds with a result [l], no alert is shown, every message
    of [l] with status [Sent] has its identity in the ledger afterwards
    (the ledger is exactly the set of those identities), and the store
    holds [l]. The same holds for the alerts and the identities when other
    handlers ran while the request was in flight, that is from any state. *)
Theorem cold_start_seeds_ledger isWeb net now l :
  delivers net l →
  presented (all_output (run isWeb [Mount; Settled false net now] initial).2) = 0%nat ∧
  (∀ m, m ∈ l → status m = "Sent" →
        _id m ∈ shownNotifications (run isWeb [Mount; Settled false net now] initial).1) ∧
  shownNotifications (run isWeb [Mount; Settled false net now] initial).1 = sent_ids l ∧
  messages (run isWeb [Mount; Settled false net now] initial).1 = l ∧
  (∀ st,
     presented (exec (fetchMessages_settle isWeb false net now) st).2 = 0%nat ∧
     ∀ m, m ∈ l → status m = "Sent" →
          _id m ∈ shownNotifications (exec (fetchMessages_settle isWeb false net now) st).1).
Proof.
  intros Hd. rewrite !run_cons. cbn [run handle fst snd].
  rewrite mount_run. cbn [fst snd]. rewrite (settle_user _ _ _ l) by done.
  cbn [fst snd shownNotifications messages initial].
  split_and!.
  - now destruct isWeb.
  - intros m Hin Hs. apply elem_of_union_l. now apply sent_ids_member.
  - set_solver.
  - reflexivity.
  - intros st. rewrite (settle_user _ _ _ l) by done. cbn [fst snd shownNotifications].
    split; [reflexivity|].
    intros m Hin Hs. apply elem_of_union_l. now apply sent_ids_member.
Qed.

Lemma cold_start_seeds_ledger_witness :
  let l := [sample "a" "Sent" TsAbsent (TsDate 1000);
            sample "b" "Scheduled" TsAbsent (TsDate 2000);
            sample "c" "Sent" (TsDate 5000) (TsDate 3000)] in
  presented (all_output (run false [Mount; Settled false (ok_reply 80 l) 6000] initial).2)
  = 0%nat ∧
  shownNotifications (run false [Mount; Settled false (ok_reply 80 l) 6000] initial).1
  = sent_ids l.
Proof.
  intros l.
  pose proof (cold_start_seeds_ledger false (ok_reply 80 l) 6000 l
                (ok_reply_delivers 80 l eq_refl)) as (H0 & _ & Hs & _).
  exact (conj H0 Hs).
Defined.

(** C3 (amended). On a native platform ([isWeb] false), when a
    background fetch succeeds with the result [pre ++ m :: post], the
    output of the step is what the loop does for [pre], then for [m], then
    for [post], and at the turn of [m] an alert for [m] is scheduled if and
    only if the status of [m] is [Sent], its identity is not in the ledger
    at that moment, and its effective time (the delivery time when the
    field is truthy, else the update time) is a valid time strictly later
    than [now] minus two minutes; otherwise nothing happens at that turn.
    The ledger at that moment is the ledger at the start of the step plus
    the identities alerted for [pre]. In particular an effective time of
    [now] minus 119 seconds alerts (status [Sent], identity not in the
    ledger) and one of [now] minus 121 seconds does not. *)
Theorem background_alert_iff st net now pre m post :
  delivers net (pre ++ m :: post) →
  let examine := alert_if_new false (Some (now - TWO_MINUTES)) in
  let before := exec (forEach pre examine) (with_messages (pre ++ m :: post) st) in
  let at_m := exec (examine m) before.1 in
  let after := exec (forEach post examine) at_m.1 in
  let fires :=
    status m = "Sent" ∧ (_id m ∉ shownNotifications before.1) ∧
    ∃ t, sentAt m = Some t ∧ now - TWO_MINUTES < t in
  (exec (fetchMessages_settle false true net now) st).2
    = before.2 ++ at_m.2 ++ after.2 ∧
  (present false m ∈ at_m.2 ↔ fires) ∧
  (fires → at_m.2 = alert_output false m) ∧
  (¬ fires → at_m.2 = []) ∧
  (∀ id, id ∈ shownNotifications before.1 ↔
         id ∈ shownNotifications st ∨ (0 < notified id before.2)%nat) ∧
  (status m = "Sent" → _id m ∉ shownNotifications before.1 →
   sentAt m = Some (now - 119 * 1000) → present false m ∈ at_m.2) ∧
  (sentAt m = Some (now - 121 * 1000) → presented at_m.2 = 0%nat).
Proof.
  intros Hd examine before at_m after fires.
  assert (Hrun : at_m =
            if due now (shownNotifications before.1) m
            then (with_shown ({[ _id m ]} ∪ shownNotifications before.1) before.1,
                  alert_output false m)
            else (before.1, [])).
  { subst at_m examine. unfold exec at 1. rewrite alert_if_new_run.
    now destruct (due now _ m). }
  assert (Hiff : due now (shownNotifications before.1) m = true ↔ fires)
    by apply due_spec.
  assert (Hmem : present false m ∈ at_m.2 ↔ fires).
  { rewrite Hrun, <- Hiff. destruct (due now _ m); cbn [snd].
    - split; [done|]. intros _. unfold alert_output. set_solver.
    - split; [set_solver|done]. }
  split_and!.
  - rewrite (settle_poll_native_loop _ _ (pre ++ m :: post)) by done.
    now rewrite examine_split.
  - exact Hmem.
  - intros Hf. apply Hiff in Hf. now rewrite Hrun, Hf.
  - intros Hf. rewrite Hrun. destruct (due now _ m) eqn:E; [|done].
    exfalso. apply Hf. now apply Hiff.
  - intros id. subst before examine. unfold exec.
    rewrite forEach_alert. cbn [fst snd with_shown with_messages shownNotifications].
    split.
    + intros [H|H]%elem_of_union; [right; now apply fired_member | now left].
    + intros [H|H]; [now apply elem_of_union_r|].
      apply elem_of_union_l, alerts_of_member.
      now rewrite <- notified_alert_outputs.
  - intros Hs Hn Ht. apply Hmem. split_and!; [done..|].
    exists (now - 119 * 1000). split; [done|]. unfold TWO_MINUTES. lia.
  - intros Ht. rewrite Hrun.
    destruct (due now _ m) eqn:E; [|done].
    apply due_spec in E as (_ & _ & t & Ht' & Hlt).
    rewrite Ht in Ht'. injection Ht' as <-. unfold TWO_MINUTES in Hlt. lia.
Qed.

Lemma background_alert_iff_witness :
  let now := 1000000 in
  let pre := [sample "a" "Sent" TsAbsent (TsDate 0)] in
  let m := sample "b" "Sent" (TsDate (now - 119 * 1000)) (TsDate 0) in
  let examine := alert_if_new false (Some (now - TWO_MINUTES)) in
  present false m ∈
    (exec (examine m)
       (exec (forEach pre examine) (with_messages (pre ++ m :: []) initial)).1).2.
Proof.
  intros now pre m examine.
  apply (background_alert_iff initial (ok_reply 50 (pre ++ m :: [])) now pre m []).
  - apply ok_reply_delivers. reflexivity.
  - reflexivity.
  - apply (bool_decide_unpack _). vm_compute. exact I.
  - reflexivity.
Defined.

(** C3, as stated, fails in the browser: a background fetch triggered by
    a socket event returns a [Sent] message that the ledger does not hold
    and that is 119 seconds old, and no alert is shown. *)
Lemma background_alert_web_counterexample :
  let now := 1000000 in
  let m := sample "b" "Sent" (TsDate (now - 119 * 1000)) (TsDate 0) in
  let out := (exec (fetchMessages_settle true true (ok_reply 50 [m]) now) initial).2 in
  ¬ ((∃ e, e ∈ out ∧ is_present e = true) ↔
     (status m = "Sent" ∧ (_id m ∉ shownNotifications initial) ∧
      ∃ t, sentAt m = Some t ∧ now - TWO_MINUTES < t)).
Proof.
  intros now m out [_ H].
  destruct H as (e & He & _).
  - split_and!; [reflexivity | apply not_elem_of_empty |].
    exists (now - 119 * 1000). split; [reflexivity|]. vm_compute. reflexivity.
  - subst out. rewrite (settle_poll_web _ _ [m]) in He.
    + cbn [snd] in He. now apply not_elem_of_nil in He.
    + apply ok_reply_delivers. reflexivity.
Qed.

(** C4 (amended). When the request fails (the connection fails, the
    reply takes ten seconds or more, the status is not a success, or the
    body cannot be parsed), the store and the ledger are what they were
    and no alert is shown. A user-initiated fetch prints the error and
    opens the [Connection Error] dialog; a background fetch does neither:
    it prints nothing and opens nothing. *)
Theorem fetch_failure_leaves_state isWeb isPoll net now st :
  fetch_fails net →
  messages (exec (fetchMessages_settle isWeb isPoll net now) st).1 = messages st ∧
  shownNotifications (exec (fetchMessages_settle isWeb isPoll net now) st).1
    = shownNotifications st ∧
  presented (exec (fetchMessages_settle isWeb isPoll net now) st).2 = 0%nat ∧
  (isPoll = false →
   (exec (fetchMessages_settle isWeb isPoll net now) st).2 =
   [ConsoleError "Error fetching messages:";
    AlertAlert "Connection Error" "Could not connect to Bull Queue server."]) ∧
  (isPoll = true → (exec (fetchMessages_settle isWeb isPoll net now) st).2 = []).
Proof.
  intros Hf. rewrite settle_fails by done. cbn [fst snd].
  destruct isPoll, st; split_and!; done.
Qed.

Lemma fetch_failure_leaves_state_witness :
  let st := {| messages := [sample "a" "Sent" TsAbsent (TsDate 0)];
               shownNotifications := {[ "a" ]};
               loading := true; refreshing := true |} in
  let net := Arrives 10000 {| ok := true; http_status := 200;
                              json := Some (ResObject true (Some [])) |} in
  messages (exec (fetchMessages_settle false false net 5000) st).1 = messages st ∧
  (exec (fetchMessages_settle false true net 5000) st).2 = [].
Proof.
  intros st net.
  assert (Hf : fetch_fails net) by (apply fails_timeout; vm_compute; discriminate).
  split.
  - apply (fetch_failure_leaves_state false false net 5000 st Hf).
  - apply (fetch_failure_leaves_state false true net 5000 st Hf). reflexivity.
Defined.

(** C4, as stated, fails for the log: a background fetch whose
    connection fails writes nothing to the console. *)
Lemma background_failure_not_logged :
  fetch_fails ConnectionFailed ∧
  ¬ (∃ e, e ∈ (exec (fetchMessages_settle false true ConnectionFailed 0) initial).2
          ∧ is_logged e = true).
Proof.
  split; [constructor|].
  intros (e & He & _). rewrite settle_fails in He by constructor.
  cbn [snd] in He. now apply not_elem_of_nil in He.
Qed.

(** C5. A manual refresh shows no alert, whatever the request returns and
    whatever the state: neither the call of [onRefresh] nor the settling
    of its fetch schedules a notification or opens the alert dialog of a
    message, even for a new [Sent] message whose time is [now]. *)
Theorem manual_refresh_never_alerts isWeb st net now :
  presented (all_output (run isWeb [Refresh; Settled false net now] st).2) = 0%nat ∧
  ∀ id, engine_alerts id (run isWeb [Refresh; Settled false net now] st).2 = 0%nat.
Proof.
  rewrite !run_cons. cbn [run handle fst snd].
  pose proof (settle_user_quiet isWeb net now
                (exec onRefresh st).1) as Hq.
  unfold all_output. cbn [map concat snd]. rewrite app_nil_r.
  assert (Hr : (exec onRefresh st).2 =
               [ConsoleLog "Fetching messages from:"; HttpGet false])
    by now destruct st.
  rewrite Hr. split.
  - unfold presented in *. rewrite List.filter_app, length_app, Hq. reflexivity.
  - intros id. cbn [engine_alerts from_fetch].
    unfold presented in Hq. unfold notified.
    set (out := (exec (fetchMessages_settle isWeb false net now) _).2) in *.
    clearbody out. induction out as [|e out IH]; [done|].
    simpl in *. destruct e; simpl in *; try done; try (now apply IH).
    destruct (bool_decide _); simpl in *; [done|now apply IH].
Qed.

(** C6. Whatever happened before, after a fetch that succeeds the store
    is exactly the result of that fetch: along any sequence of fetches the
    store equals the content of the last successful one, and nothing of
    an earlier result is kept. *)
Theorem store_equals_last_fetch isWeb evs isPoll net now l st :
  delivers net l →
  messages (run isWeb (evs ++ [Settled isPoll net now]) st).1 = l.
Proof.
  intros Hd. rewrite run_app.
  destruct (run isWeb evs st) as [st1 log1].
  rewrite run_cons. cbn [run handle fst snd].
  now apply settle_messages.
Qed.

Lemma store_equals_last_fetch_witness :
  let a := sample "a" "Sent" TsAbsent (TsDate 0) in
  let b := sample "b" "Scheduled" TsAbsent (TsDate 10) in
  messages
    (run false ([Mount; Settled false (ok_reply 40 [a; b]) 100; PollTick]
                ++ [Settled true (ok_reply 70 [b]) 60100]) initial).1 = [b].
Proof.
  intros a b.
  apply (store_equals_last_fetch false
           [Mount; Settled false (ok_reply 40 [a; b]) 100; PollTick]
           true (ok_reply 70 [b]) 60100 [b] initial).
  apply ok_reply_delivers. reflexivity.
Defined.

(** C7. The [statusUpdate] handler applies the partial update to the
    store, leaves the ledger alone, and calls [fetchMessages(true)] if and
    only if the status of the event is [Sent] and the ledger does not hold
    the identity of the event; it never starts more than that one
    background request. *)
Theorem realtime_follow_up u st :
  messages (exec (on_statusUpdate u) st).1 = applyPartial u (messages st) ∧
  shownNotifications (exec (on_statusUpdate u) st).1 = shownNotifications st ∧
  (HttpGet true ∈ (exec (on_statusUpdate u) st).2 ↔
     Update.status u = "Sent" ∧ Update.messageId u ∉ shownNotifications st) ∧
  (exec (on_statusUpdate u) st).2 =
    ConsoleLog "Real-time update received:" ::
    (if bool_decide (Update.status u = "Sent" ∧
                     Update.messageId u ∉ shownNotifications st)
     then [ConsoleLog "Status changed to Sent, triggering immediate content fetch...";
           HttpGet true]
     else []).
Proof.
  destruct st as [ms sh lo re]. js_unfold. cbn [messages shownNotifications].
  destruct (decide (Update.status u = "Sent")) as [Hs|Hs];
    destruct (decide (Update.messageId u ∈ sh)) as [Hi|Hi].
  all: rewrite ?(bool_decide_eq_true_2 (Update.status u = "Sent")) by done;
    rewrite ?(bool_decide_eq_false_2 (Update.status u = "Sent")) by done;
    rewrite ?(bool_decide_eq_true_2 (Update.messageId u ∈ sh)) by done;
    rewrite ?(bool_decide_eq_false_2 (Update.messageId u ∈ sh)) by done;
    simpl.
  - rewrite bool_decide_eq_false_2 by tauto.
    split_and!; try done. split; [|tauto].
    intros H. apply list_elem_of_In in H. simpl in H. intuition discriminate.
  - rewrite bool_decide_eq_true_2 by tauto.
    split_and!; try done. split; [done|]. intros _. set_solver.
  - rewrite bool_decide_eq_false_2 by tauto.
    split_and!; try done. split; [|tauto].
    intros H. apply list_elem_of_In in H. simpl in H. intuition discriminate.
  - rewrite bool_decide_eq_false_2 by tauto.
    split_and!; try done. split; [|tauto].
    intros H. apply list_elem_of_In in H. simpl in H. intuition discriminate.
Qed.

(** C8. The partial update of a [statusUpdate] event keeps the length
    and the order of the store; a message with another identity is kept
    as it is; a message with the identity of the event gets the status and
    the delivery time of the event and keeps every other field; when the
    identities of the store are distinct at most one position changes; and
    when no message has the identity the store, and with it the whole
    state of the component, is unchanged. *)
Theorem applyPartial_frame u (prev : list Message) :
  length (applyPartial u prev) = length prev ∧
  (∀ i m, prev !! i = Some m → _id m ≠ Update.messageId u →
          applyPartial u prev !! i = Some m) ∧
  (∀ i m, prev !! i = Some m → _id m = Update.messageId u →
          ∃ m', applyPartial u prev !! i = Some m' ∧
                status m' = Update.status u ∧
                deliveredAt m' = Update.deliveredAt u ∧
                _id m' = _id m ∧ title m' = title m ∧
                content m' = content m ∧ body m' = body m ∧
                updatedAt m' = updatedAt m ∧
                scheduledDateTime m' = scheduledDateTime m ∧
                createdAt m' = createdAt m ∧ category m' = category m ∧
                priority m' = priority m ∧
                healthCategory m' = healthCategory m) ∧
  (NoDup (_id <$> prev) →
   ∀ i j m, prev !! i = Some m → _id m = Update.messageId u → j ≠ i →
            applyPartial u prev !! j = prev !! j) ∧
  ((∀ m, m ∈ prev → _id m ≠ Update.messageId u) → applyPartial u prev = prev) ∧
  (∀ st, (exec (on_statusUpdate u) st).1 =
         with_messages (applyPartial u (messages st)) st) ∧
  (∀ st, (∀ m, m ∈ messages st → _id m ≠ Update.messageId u) →
         (exec (on_statusUpdate u) st).1 = st).
Proof.
  assert (Hstate : ∀ st, (exec (on_statusUpdate u) st).1 =
                         with_messages (applyPartial u (messages st)) st).
  { intros [ms sh lo re]. js_unfold. simpl. now destruct (_ && _). }
  split_and!.
  - unfold applyPartial. apply length_map.
  - intros i m Hi Hne. rewrite applyPartial_lookup, Hi. simpl.
    now rewrite bool_decide_eq_false_2.
  - intros i m Hi He. exists (patch u m). split_and!; try reflexivity.
    rewrite applyPartial_lookup, Hi. simpl. now rewrite bool_decide_eq_true_2.
  - intros Hnd i j m Hi He Hji. rewrite applyPartial_lookup.
    destruct (prev !! j) as [m'|] eqn:Hj; [|done]. simpl.
    destruct (decide (_id m' = Update.messageId u)) as [He'|He'].
    + exfalso. apply Hji.
      apply (NoDup_lookup (_id <$> prev) j i (Update.messageId u) Hnd).
      * now rewrite list_lookup_fmap, Hj, <- He'.
      * now rewrite list_lookup_fmap, Hi, <- He.
    + now rewrite bool_decide_eq_false_2.
  - apply applyPartial_absent.
  - exact Hstate.
  - intros st Hab. rewrite Hstate, applyPartial_absent by done. now destruct st.
Qed.

Lemma applyPartial_frame_witness :
  let a := sample "a" "Scheduled" TsAbsent (TsDate 0) in
  let b := sample "b" "Scheduled" TsAbsent (TsDate 10) in
  let u := {| Update.messageId := "b"; Update.status := "Sent";
              Update.deliveredAt := TsDate 500 |} in
  applyPartial u [a; b] !! 0%nat = Some a ∧
  applyPartial u [a] = [a].
Proof.
  intros a b u.
  pose proof (applyPartial_frame u [a; b]) as (_ & Hother & _).
  pose proof (applyPartial_frame u [a]) as (_ & _ & _ & _ & Habsent & _).
  split.
  - apply (Hother 0%nat a); [reflexivity | discriminate].
  - apply Habsent. intros m Hm. apply list_elem_of_singleton in Hm. subst m.
    discriminate.
Defined.

(** C9. Every user-initiated fetch that succeeds, from any state and not
    only the first one, puts the identity of every [Sent] message of its
    result in the ledger; from then on, whatever events follow, the alert
    decision never schedules a notification for such an identity. *)
Theorem user_fetch_marks_seen isWeb net now l st m :
  delivers net l → m ∈ l → status m = "Sent" →
  _id m ∈ shownNotifications (exec (fetchMessages_settle isWeb false net now) st).1 ∧
  shownNotifications (exec (fetchMessages_settle isWeb false net now) st).1
    = sent_ids l ∪ shownNotifications st ∧
  ∀ evs,
    engine_alerts (_id m)
      (run isWeb evs (exec (fetchMessages_settle isWeb false net now) st).1).2 = 0%nat.
Proof.
  intros Hd Hin Hs.
  assert (Hm : _id m ∈ shownNotifications
                 (exec (fetchMessages_settle isWeb false net now) st).1).
  { rewrite (settle_user _ _ _ l) by done. cbn [fst shownNotifications].
    apply elem_of_union_l. now apply sent_ids_member. }
  split_and!.
  - exact Hm.
  - now rewrite (settle_user _ _ _ l).
  - intros evs.
    now apply (run_invariant isWeb (_id m) evs
                 (exec (fetchMessages_settle isWeb false net now) st).1).
Qed.

Lemma user_fetch_marks_seen_witness :
  let m := sample "n1" "Sent" (TsDate 99000) (TsDate 99000) in
  let seeded := {| messages := []; shownNotifications := {[ "old" ]};
                   loading := true; refreshing := true |} in
  engine_alerts "n1"
    (run false [PollTick; Settled true (ok_reply 30 [m]) 100000]
       (exec (fetchMessages_settle false false (ok_reply 45 [m]) 99500) seeded).1).2
  = 0%nat.
Proof.
  intros m seeded.
  apply (user_fetch_marks_seen false (ok_reply 45 [m]) 99500 [m] seeded m).
  - apply ok_reply_delivers. reflexivity.
  - apply list_elem_of_here.
  - reflexivity.
Defined.

(** C10. The Test button of a card calls [sendNotificationFromMessage]
    directly: it shows one alert for the message, the same whatever the
    state, and leaves the store, the ledger and the rest of the state as
    they were. So [n] presses show [n] alerts, a run that starts with a
    preview goes on exactly as it would have without it, and on a native
    platform a previewed [Sent] message that the ledger does not hold is
    still alerted once by the next background fetch that returns it within
    the window. *)
Theorem preview_frame isWeb m st :
  exec (sendNotificationFromMessage isWeb m) st = (st, [present isWeb m]) ∧
  is_present (present isWeb m) = true ∧
  (∀ n, run isWeb (replicate n (Preview m)) st =
        (st, replicate n (Preview m, [present isWeb m]))) ∧
  (∀ evs, (run isWeb (Preview m :: evs) st).1 = (run isWeb evs st).1 ∧
          (run isWeb (Preview m :: evs) st).2 =
          (Preview m, [present isWeb m]) :: (run isWeb evs st).2) ∧
  (∀ net now l,
     delivers net l → m ∈ l → status m = "Sent" →
     _id m ∉ shownNotifications st → recent now m = true →
     engine_alerts (_id m) (run false [Preview m; Settled true net now] st).2 = 1%nat).
Proof.
  assert (Hp : ∀ w, exec (sendNotificationFromMessage w m) st = (st, [present w m])).
  { intros w. unfold exec. now rewrite sendNotificationFromMessage_run. }
  split_and!.
  - apply Hp.
  - now destruct isWeb.
  - intros n. apply run_previews.
  - intros evs. rewrite run_cons. cbn [handle]. now rewrite Hp.
  - intros net now l Hd Hin Hs Hn Hr.
    rewrite !run_cons. cbn [run handle fst snd]. rewrite Hp. cbn [fst].
    cbn [engine_alerts engine_count from_fetch].
    rewrite (settle_alerts_new net now l) by done. reflexivity.
Qed.

Lemma preview_frame_witness :
  let m := sample "p1" "Sent" (TsDate 99000) (TsDate 99000) in
  engine_alerts "p1"
    (run false [Preview m; Settled true (ok_reply 30 [m]) 100000] initial).2 = 1%nat.
Proof.
  intros m.
  pose proof (preview_frame false m initial) as (_ & _ & _ & _ & H).
  apply (H (ok_reply 30 [m]) 100000 [m]).
  - apply ok_reply_delivers. reflexivity.
  - apply list_elem_of_here.
  - reflexivity.
  - apply not_elem_of_empty.
  - reflexivity.
Defined.

(** ** More on the ledger and the alert decision *)

Lemma run_ledger_mono isWeb evs st :
  shownNotifications st ⊆ shownNotifications (run isWeb evs st).1.
Proof. apply (run_invariant isWeb "" evs st). Qed.

Lemma recent_earlier now1 now2 m :
  now1 ≤ now2 → recent now2 m = true → recent now1 m = true.
Proof.
  unfold recent. intros Hle (t & Ht & Hlt)%date_gt_spec.
  apply date_gt_spec. exists t. split; [done|lia].
Qed.

Lemma alerts_of_sound now m (l : list Message) : ∀ seen,
  m ∈ alerts_of now seen l →
  m ∈ l ∧ status m = "Sent" ∧ recent now m = true ∧ _id m ∉ seen.
Proof.
  induction l as [|x l IH]; intros seen Hin; cbn [alerts_of] in Hin.
  - now apply not_elem_of_nil in Hin.
  - destruct (due now seen x) eqn:Hd.
    + apply elem_of_cons in Hin as [->|Hin].
      * apply due_spec in Hd as (Hs & Hn & Ht).
        split_and!; [left|done| |done]. unfold recent. now apply date_gt_spec.
      * apply IH in Hin as (H1 & H2 & H3 & H4).
        split_and!; [now right|done|done|set_solver].
    + apply IH in Hin as (H1 & H2 & H3 & H4). split_and!; [now right|done..].
Qed.

Lemma alerts_of_none now seen (l : list Message) :
  (∀ m, m ∈ l → due now seen m = false) → alerts_of now seen l = [].
Proof.
  induction l as [|x l IH]; intros H; [done|].
  cbn [alerts_of]. rewrite (H x) by left. apply IH.
  intros m Hm. apply H. now right.
Qed.

Lemma alerts_of_sublist now (l : list Message) : ∀ seen,
  alerts_of now seen l `sublist_of` l.
Proof.
  induction l as [|x l IH]; intros seen; cbn [alerts_of]; [constructor|].
  destruct (due now seen x); [apply sublist_skip|apply sublist_cons]; apply IH.
Qed.

Lemma alerts_of_NoDup now (l : list Message) : ∀ seen,
  NoDup (_id <$> alerts_of now seen l).
Proof.
  induction l as [|x l IH]; intros seen; cbn [alerts_of]; [constructor|].
  destruct (due now seen x); [|apply IH].
  cbn [fmap list_fmap]. apply NoDup_cons. split; [|apply IH].
  intros (m & He & Hm)%list_elem_of_fmap.
  apply alerts_of_sound in Hm as (_ & _ & _ & Hn). set_solver.
Qed.

Lemma alert_outputs_member e (fired : list Message) :
  e ∈ concat (map (alert_output false) fired) → is_present e = true →
  ∃ m, m ∈ fired ∧ e = present false m.
Proof.
  induction fired as [|x fired IH]; cbn [map concat]; intros Hin Hp.
  - now apply not_elem_of_nil in Hin.
  - apply elem_of_app in Hin as [Hin|Hin].
    + unfold alert_output in Hin.
      apply elem_of_cons in Hin as [->|Hin]; [discriminate|].
      apply list_elem_of_singleton in Hin as ->. exists x. split; [left|done].
    + destruct (IH Hin Hp) as (m & Hm & He). exists m. split; [now right|done].
Qed.

(** X1. The ledger is never pruned: along any run, on either platform,
    every identity the ledger holds at some point is still in it after
    any further events. *)
Theorem ledger_only_grows isWeb evs1 evs2 st :
  shownNotifications (run isWeb evs1 st).1 ⊆
  shownNotifications (run isWeb (evs1 ++ evs2) st).1.
Proof.
  rewrite run_app. destruct (run isWeb evs1 st) as [st1 log1] eqn:E1.
  pose proof (run_ledger_mono isWeb evs2 st1) as H.
  destruct (run isWeb evs2 st1) as [st2 log2]. exact H.
Qed.



(** X3. Identity by identity, for any result (repeated identities
    allowed): a successful background fetch on a native platform
    schedules one notification for an identity when the ledger does not
    hold it and some message of the result carries it with status [Sent]
    and a recent time, and none otherwise. *)
Theorem alerts_by_identity net now (l : list Message) st id :
  delivers net l →
  (notified id (exec (fetchMessages_settle false true net now) st).2 ≤ 1)%nat ∧
  (notified id (exec (fetchMessages_settle false true net now) st).2 = 1%nat ↔
   (id ∉ shownNotifications st) ∧
   ∃ m, m ∈ l ∧ _id m = id ∧ status m = "Sent" ∧
        ∃ t, sentAt m = Some t ∧ now - TWO_MINUTES < t).
Proof.
  intros Hd. rewrite (settle_poll_native _ _ l) by done. cbn [snd].
  rewrite notified_alert_outputs, alerts_of_count.
  destruct (decide (id ∈ shownNotifications st)) as [Hs|Hs].
  { rewrite (bool_decide_eq_true_2 _ Hs). split; [lia|]. split; [lia|tauto]. }
  rewrite (bool_decide_eq_false_2 _ Hs).
  destruct (existsb (wanted now id) l) eqn:Hex.
  - split; [lia|]. split; [|done]. intros _. split; [done|].
    apply existsb_exists in Hex as (m & Hin & Hw).
    unfold wanted, recent in Hw.
    apply andb_true_iff in Hw as [Hw Hr]. apply andb_true_iff in Hw as [Hi Hst].
    exists m. split_and!.
    + now apply list_elem_of_In.
    + now apply bool_decide_eq_true in Hi.
    + now apply bool_decide_eq_true in Hst.
    + now apply date_gt_spec.
  - split; [lia|]. split; [lia|]. intros (_ & m & Hin & Hi & Hst & Ht).
    assert (existsb (wanted now id) l = true); [|congruence].
    apply existsb_exists. exists m. split; [now apply list_elem_of_In|].
    unfold wanted, recent. rewrite !bool_decide_eq_true_2 by done.
    now apply date_gt_spec.
Qed.

Lemma alerts_by_identity_witness :
  let stale := sample "d" "Sent" TsAbsent (TsDate 0) in
  let fresh := sample "d" "Sent" (TsDate 990000) (TsDate 0) in
  notified "d"
    (exec (fetchMessages_settle false true (ok_reply 10 [stale; fresh; fresh]) 1000000)
       initial).2 = 1%nat.
Proof.
  intros stale fresh.
  apply (alerts_by_identity (ok_reply 10 [stale; fresh; fresh]) 1000000
           [stale; fresh; fresh] initial "d").
  - apply ok_reply_delivers. reflexivity.
  - split; [apply not_elem_of_empty|].
    exists fresh. split_and!; [right; left|reflexivity|reflexivity|].
    exists 990000. split; reflexivity.
Defined.

(** X4. What a background fetch never alerts for: every alert of a
    successful background fetch on a native platform is the alert of a
    message of the result, with that message's title, text and identity,
    and that message has status [Sent], a recent time, an identity the
    ledger did not hold before the step and holds after it. *)
Theorem alert_is_for_a_due_message net now (l : list Message) st e :
  delivers net l →
  e ∈ (exec (fetchMessages_settle false true net now) st).2 →
  is_present e = true →
  ∃ m, m ∈ l ∧ e = present false m ∧ status m = "Sent" ∧
       recent now m = true ∧ (_id m ∉ shownNotifications st) ∧
       _id m ∈ shownNotifications (exec (fetchMessages_settle false true net now) st).1.
Proof.
  intros Hd. rewrite (settle_poll_native _ _ l) by done.
  cbn [fst snd shownNotifications]. intros Hin Hp.
  destruct (alert_outputs_member e _ Hin Hp) as (m & Hm & ->).
  exists m. pose proof Hm as Hm'.
  apply alerts_of_sound in Hm as (H1 & H2 & H3 & H4).
  split_and!; try done.
  apply elem_of_union_l, elem_of_list_to_set, list_elem_of_In, in_map.
  now apply list_elem_of_In.
Qed.

Lemma alert_is_for_a_due_message_witness :
  let m := sample "w" "Sent" (TsDate 990000) (TsDate 0) in
  let old := sample "o" "Sent" TsAbsent (TsDate 0) in
  ∃ m', m' ∈ [old; m] ∧ present false m = present false m' ∧ status m' = "Sent" ∧
        recent 1000000 m' = true ∧ (_id m' ∉ shownNotifications initial) ∧
        _id m' ∈ shownNotifications
          (exec (fetchMessages_settle false true (ok_reply 10 [old; m]) 1000000)
             initial).1.
Proof.
  intros m old.
  apply (alert_is_for_a_due_message (ok_reply 10 [old; m]) 1000000 [old; m]
           initial (present false m)).
  - apply ok_reply_delivers. reflexivity.
  - apply list_elem_of_In. vm_compute. right. left. reflexivity.
  - reflexivity.
Defined.

(** X5. The alerts of one background fetch follow the order of the
    result and never repeat an identity: the alerted messages form a
    sublist of the result with pairwise distinct identities, and the
    output of the step is, for each of them in turn, one console line and
    one notification. *)
Theorem alerts_in_result_order net now (l : list Message) st :
  delivers net l →
  ∃ fired : list Message,
    fired `sublist_of` l ∧ NoDup (_id <$> fired) ∧
    (exec (fetchMessages_settle false true net now) st).2 =
      concat (map (alert_output false) fired) ∧
    shownNotifications (exec (fetchMessages_settle false true net now) st).1 =
      list_to_set (_id <$> fired) ∪ shownNotifications st.
Proof.
  intros Hd. exists (alerts_of now (shownNotifications st) l).
  rewrite (settle_poll_native _ _ l) by done.
  split_and!; [apply alerts_of_sublist | apply alerts_of_NoDup | done | done].
Qed.

Lemma alerts_in_result_order_witness :
  let a := sample "a" "Sent" (TsDate 990000) (TsDate 0) in
  let b := sample "b" "Scheduled" TsAbsent (TsDate 995000) in
  let c := sample "c" "Sent" TsAbsent (TsDate 999000) in
  ∃ fired : list Message,
    fired `sublist_of` [a; b; c; a] ∧ NoDup (_id <$> fired) ∧
    (exec (fetchMessages_settle false true (ok_reply 10 [a; b; c; a]) 1000000)
       initial).2 = concat (map (alert_output false) fired) ∧
    shownNotifications
      (exec (fetchMessages_settle false true (ok_reply 10 [a; b; c; a]) 1000000)
         initial).1 = list_to_set (_id <$> fired) ∪ shownNotifications initial.
Proof.
  intros a b c.
  apply (alerts_in_result_order (ok_reply 10 [a; b; c; a]) 1000000 [a; b; c; a] initial).
  apply ok_reply_delivers. reflexivity.
Defined.

(** X6. Polling again is silent: once a background fetch has settled
    with a result, a later background fetch that settles with the same
    result, at the same or a later time and after any events in between,
    prints nothing and schedules nothing. *)
Theorem repoll_is_silent st net1 net2 now1 now2 (l : list Message) between :
  delivers net1 l → delivers net2 l → now1 ≤ now2 →
  (exec (fetchMessages_settle false true net2 now2)
     (run false (Settled true net1 now1 :: between) st).1).2 = [].
Proof.
  intros Hd1 Hd2 Hle.
  rewrite run_cons. cbn [fst handle].
  set (st1 := (exec (fetchMessages_settle false true net1 now1) st).1).
  set (st2 := (run false between st1).1).
  rewrite (settle_poll_native _ _ l) by done. cbn [snd].
  rewrite alerts_of_none; [done|].
  intros m Hin. destruct (due now2 (shownNotifications st2) m) eqn:Hdue; [|done].
  exfalso. apply due_spec in Hdue as (Hs & Hn & Ht).
  apply Hn. apply (run_ledger_mono false between st1).
  destruct (decide (_id m ∈ shownNotifications st)) as [Hold|Hnew].
  - pose proof (handle_step false (Settled true net1 now1) st (_id m)) as (Hm & _).
    now apply Hm.
  - pose proof (handle_step false (Settled true net1 now1) st (_id m))
      as (_ & _ & _ & H1).
    apply H1. unfold engine_count. cbn [from_fetch handle].
    apply (settle_alerts_new net1 now1 l); try done.
    apply (recent_earlier now1 now2); [done|].
    unfold recent. now apply date_gt_spec.
Qed.

Lemma repoll_is_silent_witness :
  let m := sample "r" "Sent" (TsDate 990000) (TsDate 0) in
  (exec (fetchMessages_settle false true (ok_reply 15 [m]) 1060000)
     (run false (Settled true (ok_reply 10 [m]) 1000000 :: [PollTick]) initial).1).2
  = [].
Proof.
  intros m.
  apply (repoll_is_silent initial (ok_reply 10 [m]) (ok_reply 15 [m])
           1000000 1060000 [m] [PollTick]).
  - apply ok_reply_delivers. reflexivity.
  - apply ok_reply_delivers. reflexivity.
  - vm_compute. discriminate.
Defined.

Lemma background_alert_distinct_witness :
  let a := sample "a" "Sent" (TsDate 990000) (TsDate 0) in
  let b := sample "b" "Sent" TsAbsent (TsDate 100) in
  present false a ∈
    (exec (fetchMessages_settle false true (ok_reply 10 [b; a]) 1000000) initial).2.
Proof.
  intros a b.
  apply (background_alert_distinct initial (ok_reply 10 [b; a]) 1000000 [b; a] a).
  - apply ok_reply_delivers. reflexivity.
  - apply (bool_decide_unpack _). vm_compute. exact I.
  - right. left.
  - split_and!; [reflexivity | apply not_elem_of_empty |].
    exists 990000. split; reflexivity.
Defined.

(** ** More on [fetchMessages] and the socket handler *)

(** X7. A reply that arrives in time with a success status but whose body
    has a falsy [success], no [data], or is a bare array changes neither
    the store nor the ledger and is not reported: a background fetch does
    nothing at all, a user-initiated fetch prints the body, resets the two
    spinners and opens no dialog. *)
Theorem unusable_body_is_dropped isWeb isPoll net now st :
  ignored net →
  messages (exec (fetchMessages_settle isWeb isPoll net now) st).1 = messages st ∧
  shownNotifications (exec (fetchMessages_settle isWeb isPoll net now) st).1
    = shownNotifications st ∧
  (exec (fetchMessages_settle isWeb isPoll net now) st).2
    = (if isPoll then [] else [ConsoleLog "Messages response:"]) ∧
  (isPoll = true → (exec (fetchMessages_settle isWeb isPoll net now) st).1 = st).
Proof.
  intros Hi. rewrite settle_ignored by done. cbn [fst snd].
  destruct isPoll, st; split_and!; done.
Qed.

Lemma unusable_body_is_dropped_witness :
  let st := {| messages := [sample "a" "Sent" TsAbsent (TsDate 0)];
               shownNotifications := {[ "a" ]};
               loading := true; refreshing := false |} in
  let net := Arrives 200 {| ok := true; http_status := 200;
                            json := Some (ResArray [sample "z" "Sent" TsAbsent TsAbsent]) |} in
  messages (exec (fetchMessages_settle false false net 5000) st).1 = messages st.
Proof.
  intros st net.
  apply (unusable_body_is_dropped false false net 5000 st).
  apply (ignored_intro 200 _ (ResArray [sample "z" "Sent" TsAbsent TsAbsent]));
    [reflexivity | reflexivity | reflexivity | left; reflexivity].
Defined.

Lemma settle_flags_facts isWeb net now st :
  loading (exec (fetchMessages_settle isWeb false net now) st).1 = false ∧
  refreshing (exec (fetchMessages_settle isWeb false net now) st).1 = false ∧
  loading (exec (fetchMessages_settle isWeb true net now) st).1 = loading st ∧
  refreshing (exec (fetchMessages_settle isWeb true net now) st).1 = refreshing st.
Proof.
  destruct (net_cases net) as [Hf|[[l Hd]|Hi]].
  - rewrite !settle_fails by done. now destruct st.
  - rewrite (settle_user _ _ _ l) by done.
    destruct isWeb.
    + rewrite (settle_poll_web _ _ l) by done. now destruct st.
    + rewrite (settle_poll_native _ _ l) by done. now destruct st.
  - rewrite !settle_ignored by done. now destruct st.
Qed.

(** X8. The spinners: when a user-initiated fetch settles, whatever the
    network did, [loading] and [refreshing] are both false afterwards;
    when a background fetch settles, whatever the network did, both are
    what they were. *)
Theorem spinners_after_settle isWeb net now st :
  loading (exec (fetchMessages_settle isWeb false net now) st).1 = false ∧
  refreshing (exec (fetchMessages_settle isWeb false net now) st).1 = false ∧
  loading (exec (fetchMessages_settle isWeb true net now) st).1 = loading st ∧
  refreshing (exec (fetchMessages_settle isWeb true net now) st).1 = refreshing st.
Proof.
  destruct (net_cases net) as [Hf|[[l Hd]|Hi]].
  - rewrite !settle_fails by done. now destruct st.
  - rewrite (settle_user _ _ _ l) by done.
    destruct isWeb.
    + rewrite (settle_poll_web _ _ l) by done. now destruct st.
    + rewrite (settle_poll_native _ _ l) by done. now destruct st.
  - rewrite !settle_ignored by done. now destruct st.
Qed.



Lemma applyPartial_cons u m (prev : list Message) :
  applyPartial u (m :: prev) =
  (if bool_decide (_id m = Update.messageId u) then patch u m else m)
    :: applyPartial u prev.
Proof. reflexivity. Qed.

(** X10. Partial updates compose by identity: for the same identity the
    later event wins entirely (so applying an event twice is the same as
    once), for two different identities the order of the events does not
    matter, and no event changes the identities of the store or their
    order. *)
Theorem applyPartial_compose u1 u2 (prev : list Message) :
  (Update.messageId u1 = Update.messageId u2 →
   applyPartial u2 (applyPartial u1 prev) = applyPartial u2 prev) ∧
  (Update.messageId u1 ≠ Update.messageId u2 →
   applyPartial u2 (applyPartial u1 prev) = applyPartial u1 (applyPartial u2 prev)) ∧
  _id <$> applyPartial u1 prev = _id <$> prev.
Proof.
  split_and!.
  - intros He. induction prev as [|m prev IH]; [done|].
    rewrite !applyPartial_cons, IH. f_equal.
    repeat (case_bool_decide; simpl in * ); (reflexivity || congruence).
  - intros Hne. induction prev as [|m prev IH]; [done|].
    rewrite !applyPartial_cons, IH. f_equal.
    repeat (case_bool_decide; simpl in * ); (reflexivity || congruence).
  - induction prev as [|m prev IH]; [done|].
    rewrite applyPartial_cons, !fmap_cons, IH. f_equal.
    now destruct (bool_decide _).
Qed.

Lemma applyPartial_compose_witness :
  let a := sample "a" "Scheduled" TsAbsent (TsDate 0) in
  let b := sample "b" "Scheduled" TsAbsent (TsDate 10) in
  let u1 := {| Update.messageId := "a"; Update.status := "Sent";
               Update.deliveredAt := TsDate 500 |} in
  let u2 := {| Update.messageId := "a"; Update.status := "Failed";
               Update.deliveredAt := TsAbsent |} in
  let u3 := {| Update.messageId := "b"; Update.status := "Sent";
               Update.deliveredAt := TsDate 700 |} in
  applyPartial u2 (applyPartial u1 [a; b]) = applyPartial u2 [a; b] ∧
  applyPartial u3 (applyPartial u1 [a; b]) = applyPartial u1 (applyPartial u3 [a; b]).
Proof.
  intros a b u1 u2 u3. split.
  - apply (applyPartial_compose u1 u2 [a; b]). reflexivity.
  - apply (applyPartial_compose u1 u3 [a; b]). discriminate.
Defined.

(** X11. Once the ledger holds an identity, no socket event for that
    identity ever starts a fetch again: after any further events, on
    either platform, the handler of such an event only prints its first
    line. *)
Theorem seen_identity_never_refetched isWeb evs st u :
  Update.messageId u ∈ shownNotifications st →
  (exec (on_statusUpdate u) (run isWeb evs st).1).2 =
  [ConsoleLog "Real-time update received:"].
Proof.
  intros Hin.
  pose proof (run_ledger_mono isWeb evs st) as Hmono.
  destruct ((run isWeb evs st).1) as [ms sh lo re]. cbn [shownNotifications] in Hmono.
  js_unfold. simpl.
  rewrite (bool_decide_eq_true_2 (Update.messageId u ∈ sh)) by set_solver.
  now rewrite andb_false_r.
Qed.

Lemma seen_identity_never_refetched_witness :
  let m := sample "s" "Sent" TsAbsent (TsDate 0) in
  let st := (exec (fetchMessages_settle false false (ok_reply 10 [m]) 1000) initial).1 in
  let u := {| Update.messageId := "s"; Update.status := "Sent";
              Update.deliveredAt := TsDate 2000 |} in
  (exec (on_statusUpdate u) (run false [PollTick; Refresh] st).1).2 =
  [ConsoleLog "Real-time update received:"].
Proof.
  intros m st u.
  apply (seen_identity_never_refetched false [PollTick; Refresh] st u).
  apply (bool_decide_unpack _). vm_compute. exact I.
Defined.

(** X12. No handler retries or fans out: a step sends at most one GET
    request, and the settling of a fetch, whatever its outcome, and the
    Test button of a card send none. *)
Theorem no_retry_no_fan_out isWeb ev st :
  (requests (exec (handle isWeb ev) st).2 ≤ 1)%nat ∧
  (∀ isPoll net now st',
     requests (exec (fetchMessages_settle isWeb isPoll net now) st').2 = 0%nat) ∧
  (∀ m st', requests (exec (sendNotificationFromMessage isWeb m) st').2 = 0%nat).
Proof.
  assert (Hsettle : ∀ isPoll net now st',
            requests (exec (fetchMessages_settle isWeb isPoll net now) st').2 = 0%nat).
  { intros isPoll net now st'.
    destruct (net_cases net) as [Hf|[[l Hd]|Hi]].
    - rewrite settle_fails by done. now destruct isPoll.
    - destruct isPoll; [destruct isWeb|].
      + now rewrite (settle_poll_web _ _ l).
      + rewrite (settle_poll_native _ _ l) by done. cbn [snd].
        induction (alerts_of now (shownNotifications st') l) as [|x f IH]; [done|].
        exact IH.
      + now rewrite (settle_user _ _ _ l).
    - rewrite settle_ignored by done. now destruct isPoll. }
  assert (Hprev : ∀ m st',
            requests (exec (sendNotificationFromMessage isWeb m) st').2 = 0%nat).
  { intros m st'. unfold exec. rewrite sendNotificationFromMessage_run.
    now destruct isWeb. }
  split_and!; [|done|done].
  destruct ev as [| | |u|m|isPoll net now]; cbn [handle].
  - rewrite mount_run. destruct isWeb; unfold requests; simpl; lia.
  - rewrite call_run. unfold requests. simpl. lia.
  - destruct st. unfold requests. simpl. lia.
  - destruct st as [ms sh lo re]. js_unfold. simpl.
    destruct (_ && _); unfold requests; simpl; lia.
  - rewrite Hprev. lia.
  - rewrite Hsettle. lia.
Qed.

(** ** Registration *)

Ltac sh_unfold :=
  unfold registerForPushNotificationsAsync, registerWebDevice_call,
    registerWebDevice_settle, registerTokenWithBackend_call,
    registerTokenWithBackend_settle, on_push_token, sendTestNotification_press,
    sendTestNotification_posted, sendTestNotification_refreshed, sh_mount,
    await_post, await_post_json, read_success, console_log, console_error, alert,
    setExpoPushToken, setTokenRegistered, setTestingNotification,
    sh_try_catch, sh_finally, sh_when, sh_exec, sh_value, lift,
    sh_modify, sh_get, sh_emit, sh_throw, mbind, Sh_bind, mret, Sh_ret.

Ltac not_in_list H :=
  repeat (apply elem_of_cons in H as [H|H]; [discriminate H|]);
  apply not_elem_of_nil in H; contradiction.

Lemma finalStatus_granted dev :
  finalStatus dev = "granted" ↔
  existingStatus dev = "granted" ∨ requestedStatus dev = "granted".
Proof.
  unfold finalStatus. case_bool_decide as H; [tauto|].
  assert (existingStatus dev = "granted") by (destruct (decide (existingStatus dev = "granted")); tauto).
  tauto.
Qed.

(** What [registerForPushNotificationsAsync] returns and prints, case by
    case. *)
Lemma registerForPushNotificationsAsync_run os dev now ui :
  registerForPushNotificationsAsync os dev now ui =
  (ShNormal
     (if os_isWeb os then None
      else if isDevice dev then
        if bool_decide (finalStatus dev ≠ "granted") then None else expoToken dev
      else Some ("emulator-token-" +:+ modelName dev +:+ "-" +:+ pretty now)),
   ui,
   Core (ConsoleLog "Starting push notification permission check...") ::
   if os_isWeb os then
     [Core (ConsoleLog "Web mode detected, skipping native notifications")]
   else
     (if os_isAndroid os then
        [Core (ConsoleLog "Configuring Android notification channel...");
         SetNotificationChannel]
      else []) ++
     Core (ConsoleLog "Checking if device is physical:") ::
     if isDevice dev then
       [GetPermissions; Core (ConsoleLog "Current permission status:")] ++
       (if bool_decide (existingStatus dev ≠ "granted") then
          [Core (ConsoleLog "Requesting permissions..."); RequestPermissions]
        else []) ++
       if bool_decide (finalStatus dev ≠ "granted") then
         [Core (ConsoleLog "Permissions denied");
          Core (AlertAlert "Failed to get push token for push notification!" "")]
       else
         [Core (ConsoleLog "Fetching Expo Push Token...");
          Core (ConsoleLog "Using projectId:");
          GetExpoPushToken (default DEFAULT_PROJECT_ID (easProjectId dev))] ++
         match expoToken dev with
         | Some _ => [Core (ConsoleLog "Token received:")]
         | None =>
             [Core (ConsoleError "Error fetching push token:");
              Core (AlertAlert "Token Error"
                      "Failed to get Expo push token. Are you logged into Expo?")]
         end
     else [Core (ConsoleLog "Using emulator - falling back to dummy token")]).
Proof.
  unfold finalStatus. sh_unfold.
  destruct os; cbn [os_isWeb os_isAndroid]; try reflexivity.
  all: destruct (isDevice dev); try reflexivity.
  all: destruct (bool_decide (existingStatus dev ≠ "granted")); cbn.
  all: destruct (bool_decide (_ ≠ "granted")); cbn; try reflexivity.
  all: destruct (expoToken dev); reflexivity.
Qed.




Lemma lift_run {A} (m : JS A) ui :
  lift m ui =
  (ShNormal (), with_core (exec m (core ui)).1 ui, Core <$> (exec m (core ui)).2).
Proof. unfold lift. now destruct (exec m (core ui)). Qed.

Lemma with_core_same ui : with_core (core ui) ui = ui.
Proof. now destruct ui. Qed.

Lemma core_effects_app (o1 o2 : list ShellEffect) :
  core_effects (o1 ++ o2) = core_effects o1 ++ core_effects o2.
Proof. apply omap_app. Qed.

Lemma core_effects_Core (out : list Effect) : core_effects (Core <$> out) = out.
Proof. induction out as [|e out IH]; [done|]. cbn. now f_equal. Qed.

Lemma post_requests_app (o1 o2 : list ShellEffect) :
  post_requests (o1 ++ o2) = post_requests o1 ++ post_requests o2.
Proof. apply omap_app. Qed.

Lemma post_requests_Core (out : list Effect) : post_requests (Core <$> out) = [].
Proof. induction out as [|e out IH]; [done|]. exact IH. Qed.

Lemma registration_sends_nothing os dev now ui :
  post_requests (sh_exec (registerForPushNotificationsAsync os dev now) ui).2 = [].
Proof.
  unfold sh_exec. rewrite registerForPushNotificationsAsync_run. cbn [snd].
  destruct os, (isDevice dev), (bool_decide (existingStatus dev ≠ "granted")),
    (bool_decide (finalStatus dev ≠ "granted")), (expoToken dev); reflexivity.
Qed.

Lemma on_push_token_run os token ui :
  sh_exec (on_push_token os token) ui =
  ({| core := if token_truthy token
              then {| messages := messages (core ui);
                      shownNotifications := shownNotifications (core ui);
                      loading := true; refreshing := refreshing (core ui) |}
              else core ui;
      expoPushToken := token;
      tokenRegistered := tokenRegistered ui;
      testingNotification := testingNotification ui |},
   if token_truthy token
   then [Core (ConsoleLog "Attempting to register token with backend:");
         HttpPost (RegisterDevice (default "" token) (os_name os))]
   else []).
Proof.
  destruct ui as [[ms sh lo re] tok reg tst], token as [t|]; sh_unfold; [|done].
  cbn [token_truthy]. destruct (negb _); reflexivity.
Qed.

(** X16. When the token of the device arrives, it is stored as it is, and
    the device is registered with the backend exactly when the token is
    truthy: then one request is sent, with that token and the name of the
    platform. On a physical device whose permission ends up refused no
    token is stored, no request is sent, and the Test button of the header
    stays disabled. *)
Theorem token_decides_registration os server dev now ui :
  Some (expoPushToken (sh_exec (sh_handle os server (PushTokenResolved dev now)) ui).1)
    = sh_value (registerForPushNotificationsAsync os dev now) ui ∧
  post_requests (sh_exec (sh_handle os server (PushTokenResolved dev now)) ui).2 =
    (let token := expoPushToken
                    (sh_exec (sh_handle os server (PushTokenResolved dev now)) ui).1 in
     if token_truthy token then [RegisterDevice (default "" token) (os_name os)]
     else []) ∧
  (os_isWeb os = false → isDevice dev = true →
   existingStatus dev ≠ "granted" → requestedStatus dev ≠ "granted" →
   post_requests (sh_exec (sh_handle os server (PushTokenResolved dev now)) ui).2 = [] ∧
   test_disabled (sh_exec (sh_handle os server (PushTokenResolved dev now)) ui).1 = true).
Proof.
  assert (Hrun : sh_exec (sh_handle os server (PushTokenResolved dev now)) ui =
            let token := default None
                           (sh_value (registerForPushNotificationsAsync os dev now) ui) in
            ((sh_exec (on_push_token os token) ui).1,
             (sh_exec (registerForPushNotificationsAsync os dev now) ui).2 ++
             (sh_exec (on_push_token os token) ui).2)).
  { cbn [sh_handle]. unfold sh_exec at 1, sh_value, mbind, Sh_bind.
    unfold sh_exec at 2. rewrite registerForPushNotificationsAsync_run.
    cbn [default snd]. unfold sh_exec.
    now destruct (on_push_token os _ ui) as [[c ui'] out']. }
  rewrite Hrun. cbn zeta. cbn [fst snd].
  rewrite post_requests_app, registration_sends_nothing, on_push_token_run.
  cbn [fst snd expoPushToken app].
  unfold sh_value. rewrite registerForPushNotificationsAsync_run. cbn [default].
  split_and!.
  - reflexivity.
  - now destruct (token_truthy _).
  - intros -> -> He Hr.
    assert (Hf : finalStatus dev ≠ "granted").
    { rewrite finalStatus_granted. tauto. }
    rewrite (bool_decide_eq_true_2 _ Hf). done.
Qed.

Lemma token_decides_registration_witness :
  let dev := {| isDevice := true; modelName := "iPhone";
                existingStatus := "undetermined"; requestedStatus := "denied";
                easProjectId := None; expoToken := Some "ExponentPushToken[q]" |} in
  post_requests (sh_exec (sh_handle Ios "http://10.0.0.2:3001"
                            (PushTokenResolved dev 1700000000000)) ui_initial).2 = [] ∧
  test_disabled (sh_exec (sh_handle Ios "http://10.0.0.2:3001"
                            (PushTokenResolved dev 1700000000000)) ui_initial).1 = true.
Proof.
  intros dev.
  apply (token_decides_registration Ios "http://10.0.0.2:3001" dev 1700000000000
           ui_initial); [reflexivity | reflexivity | discriminate | discriminate].
Defined.

Lemma registerTokenWithBackend_settle_run server reply ui :
  sh_exec (registerTokenWithBackend_settle server reply) ui =
  ({| core := {| messages := messages (core ui);
                 shownNotifications := shownNotifications (core ui);
                 loading := false; refreshing := refreshing (core ui) |};
      expoPushToken := expoPushToken ui;
      tokenRegistered := tokenRegistered ui || reply_success reply;
      testingNotification := testingNotification ui |},
   match reply with
   | PostFailed =>
       [Core (ConsoleError "Network error registering device:");
        Core (AlertAlert "Connection Error"
                ("Could not reach backend at " +:+ server +:+ ". Check Wi-Fi/Firewall."))]
   | PostAnswered _ Unparseable =>
       [Core (ConsoleLog "Response received from backend:");
        Core (ConsoleError "Network error registering device:");
        Core (AlertAlert "Connection Error"
                ("Could not reach backend at " +:+ server +:+ ". Check Wi-Fi/Firewall."))]
   | PostAnswered _ JsonNull =>
       [Core (ConsoleLog "Response received from backend:");
        Core (ConsoleLog "Backend response result:");
        Core (ConsoleError "Network error registering device:");
        Core (AlertAlert "Connection Error"
                ("Could not reach backend at " +:+ server +:+ ". Check Wi-Fi/Firewall."))]
   | PostAnswered _ (JsonValue r) =>
       [Core (ConsoleLog "Response received from backend:");
        Core (ConsoleLog "Backend response result:")] ++
       if api_success r then
         [Core (ConsoleLog "Device registered successfully with Bull Queue server");
          Core (ConsoleLog "   Device ID:");
          Core (AlertAlert "Success" "Device registered successfully!")]
       else
         [Core (ConsoleError "Failed to register device:");
          Core (AlertAlert "Registration Error"
                  (or_default (api_error r) "Failed to register device"))]
   end).
Proof.
  destruct ui as [[ms sh lo re] tok reg tst].
  destruct reply as [|code [| |[succ err res]]]; [| | |destruct succ].
  all: cbn [reply_success api_success]; rewrite ?orb_false_r, ?orb_true_r; reflexivity.
Qed.

Lemma registerWebDevice_settle_run reply ui :
  sh_exec (registerWebDevice_settle reply) ui =
  ({| core := core ui; expoPushToken := expoPushToken ui;
      tokenRegistered := tokenRegistered ui || reply_success reply;
      testingNotification := testingNotification ui |},
   match reply with
   | PostAnswered _ (JsonValue r) =>
       if api_success r then [Core (ConsoleLog "Web device registered successfully")]
       else [Core (ConsoleError "Failed to register web device:")]
   | _ =>
       [Core (ConsoleError "Network error registering web device:");
        Core (AlertAlert "Connection Error" "Could not connect to Bull Queue server")]
   end).
Proof.
  destruct ui as [st tok reg tst].
  destruct reply as [|code [| |[succ err res]]]; [| | |destruct succ].
  all: cbn [reply_success api_success]; rewrite ?orb_false_r, ?orb_true_r; reflexivity.
Qed.

(** X17. However the registration of a native device with the backend
    ends (no reply, a body that is not JSON or is null, a refusal, a
    success), exactly one dialog is opened and [loading] is false
    afterwards; [tokenRegistered] becomes true exactly on a body with a
    truthy [success], whatever the status code, and is otherwise what it
    was; the store, the ledger, the token and the other flags are
    untouched and nothing is sent again. *)
Theorem backend_registration_outcomes server reply ui :
  dialogs (core_effects (sh_exec (registerTokenWithBackend_settle server reply) ui).2)
    = 1%nat ∧
  loading (core (sh_exec (registerTokenWithBackend_settle server reply) ui).1) = false ∧
  tokenRegistered (sh_exec (registerTokenWithBackend_settle server reply) ui).1
    = tokenRegistered ui || reply_success reply ∧
  messages (core (sh_exec (registerTokenWithBackend_settle server reply) ui).1)
    = messages (core ui) ∧
  shownNotifications (core (sh_exec (registerTokenWithBackend_settle server reply) ui).1)
    = shownNotifications (core ui) ∧
  refreshing (core (sh_exec (registerTokenWithBackend_settle server reply) ui).1)
    = refreshing (core ui) ∧
  expoPushToken (sh_exec (registerTokenWithBackend_settle server reply) ui).1
    = expoPushToken ui ∧
  testingNotification (sh_exec (registerTokenWithBackend_settle server reply) ui).1
    = testingNotification ui ∧
  post_requests (sh_exec (registerTokenWithBackend_settle server reply) ui).2 = [] ∧
  requests (core_effects (sh_exec (registerTokenWithBackend_settle server reply) ui).2)
    = 0%nat.
Proof.
  rewrite registerTokenWithBackend_settle_run. cbn [fst snd].
  destruct reply as [|code [| |[succ err res]]]; [| | |destruct succ].
  all: split_and!; reflexivity.
Qed.

(** X18. In the browser the registration of the simulated device is
    quiet: a dialog is opened only when the request gets no reply or the
    body is not a JSON value (not JSON, or null); a refusal by the server
    is only printed. [tokenRegistered] becomes true exactly on a body with
    a truthy [success] and nothing else of the state changes. *)
Theorem web_registration_outcomes reply ui :
  dialogs (core_effects (sh_exec (registerWebDevice_settle reply) ui).2)
    = (if reply_throws reply then 1%nat else 0%nat) ∧
  tokenRegistered (sh_exec (registerWebDevice_settle reply) ui).1
    = tokenRegistered ui || reply_success reply ∧
  core (sh_exec (registerWebDevice_settle reply) ui).1 = core ui ∧
  expoPushToken (sh_exec (registerWebDevice_settle reply) ui).1 = expoPushToken ui ∧
  testingNotification (sh_exec (registerWebDevice_settle reply) ui).1
    = testingNotification ui ∧
  post_requests (sh_exec (registerWebDevice_settle reply) ui).2 = [].
Proof.
  rewrite registerWebDevice_settle_run. cbn [fst snd].
  destruct reply as [|code [| |[succ err res]]]; [| | |destruct succ].
  all: split_and!; reflexivity.
Qed.

(** ** The test message *)

Lemma sendTestNotification_refreshed_run os result net now ui :
  sh_exec (sendTestNotification_refreshed os result net now) ui =
  ({| core := (exec (fetchMessages_settle (os_isWeb os) false net now) (core ui)).1;
      expoPushToken := expoPushToken ui;
      tokenRegistered := tokenRegistered ui;
      testingNotification := false |},
   (Core <$> (exec (fetchMessages_settle (os_isWeb os) false net now) (core ui)).2) ++
   [Core (if os_isWeb os then
            AlertAlert "Success!"
              ("Test notification created successfully!" +:+ newline +:+ newline
               +:+ "Created " +:+ pretty (N.of_nat (created_count result))
               +:+ " notification(s). Check the message list below.")
          else AlertAlert "Success" "Test notification sent via Bull Queue!")]).
Proof.
  unfold sendTestNotification_refreshed, sh_exec, mbind, Sh_bind.
  rewrite lift_run. destruct ui as [st tok reg tst]. cbn [core with_core].
  destruct (os_isWeb os); reflexivity.
Qed.

Lemma sh_mount_run os now ui :
  sh_exec (sh_mount os now) ui =
  ({| core := (exec (mount (os_isWeb os)) (core ui)).1;
      expoPushToken :=
        if os_isWeb os then Some ("web-simulator-token-" +:+ pretty now)
        else expoPushToken ui;
      tokenRegistered := tokenRegistered ui;
      testingNotification := testingNotification ui |},
   (if os_isWeb os then
      [Core (ConsoleLog "Registering web device with Bull Queue server...");
       HttpPost (RegisterDevice ("web-simulator-token-" +:+ pretty now) "web")]
    else []) ++
   (Core <$> (exec (mount (os_isWeb os)) (core ui)).2)).
Proof.
  unfold sh_mount, sh_exec, mbind, Sh_bind.
  destruct ui as [st tok reg tst].
  destruct (os_isWeb os); sh_unfold; cbn [core];
    now destruct (exec (mount _) st).
Qed.

Lemma push_token_resolved_run os server dev now ui :
  sh_exec (sh_handle os server (PushTokenResolved dev now)) ui =
  let token := default None
                 (sh_value (registerForPushNotificationsAsync os dev now) ui) in
  ((sh_exec (on_push_token os token) ui).1,
   (sh_exec (registerForPushNotificationsAsync os dev now) ui).2 ++
   (sh_exec (on_push_token os token) ui).2).
Proof.
  cbn [sh_handle]. unfold sh_exec at 1, sh_value, mbind, Sh_bind.
  unfold sh_exec at 2. rewrite registerForPushNotificationsAsync_run.
  cbn [default snd]. unfold sh_exec.
  now destruct (on_push_token os _ ui) as [[c ui'] out'].
Qed.

Lemma registration_schedules_nothing os dev now ui :
  core_effects (sh_exec (registerForPushNotificationsAsync os dev now) ui).2 =
  List.filter (λ e, negb (is_request e) && negb (is_present e))
    (core_effects (sh_exec (registerForPushNotificationsAsync os dev now) ui).2).
Proof.
  unfold sh_exec. rewrite registerForPushNotificationsAsync_run. cbn [snd].
  destruct os, (isDevice dev), (bool_decide (existingStatus dev ≠ "granted")),
    (bool_decide (finalStatus dev ≠ "granted")), (expoToken dev); reflexivity.
Qed.

Lemma sendTestNotification_press_run os ui :
  sh_exec (sendTestNotification_press os) ui =
  if token_truthy (expoPushToken ui) then
    ({| core := core ui; expoPushToken := expoPushToken ui;
        tokenRegistered := tokenRegistered ui; testingNotification := true |},
     [Core (ConsoleLog "Sending test notification via Bull Queue...");
      HttpPost
        (ImmediateMessage "SEPHealth Test"
           (if os_isWeb os then WEB_TEST_BODY else MOBILE_TEST_BODY) "Test"
           (if includes "web-simulator" (default "" (expoPushToken ui))
            then Null else Omitted))])
  else (ui, [Core (AlertAlert "Error" "No push token available")]).
Proof.
  destruct ui as [st [t|] reg tst]; [|reflexivity].
  unfold sendTestNotification_press, sh_exec, sh_get, mbind, Sh_bind.
  cbn [expoPushToken default].
  destruct (token_truthy (Some t)); reflexivity.
Qed.

(** What one step of the whole component does to the store, the ledger
    and the registration flag. *)
Lemma sh_handle_step os server ev ui id :
  let ui' := (sh_exec (sh_handle os server ev) ui).1 in
  let out := (sh_exec (sh_handle os server ev) ui).2 in
  let n := if sh_from_fetch ev then notified id (core_effects out) else 0%nat in
  shownNotifications (core ui) ⊆ shownNotifications (core ui') ∧
  (n ≤ 1)%nat ∧
  (id ∈ shownNotifications (core ui) → n = 0%nat) ∧
  (n = 1%nat → id ∈ shownNotifications (core ui')) ∧
  tokenRegistered ui' = tokenRegistered ui || registers ev ∧
  ((∀ e, ev ≠ SCore e) → (∀ r net now, ev ≠ TestRefreshed r net now) →
   messages (core ui') = messages (core ui) ∧
   shownNotifications (core ui') = shownNotifications (core ui)).
Proof.
  destruct ev as [now|ev|dev now|reply|reply| |reply|result net now];
    cbn [sh_from_fetch registers].
  - (* the effect hook *)
    cbn [sh_handle]. rewrite sh_mount_run, mount_run. cbn [fst snd core].
    rewrite orb_false_r. destruct ui as [[ms sh lo re] tok reg tst]; cbn.
    split_and!; try done; lia.
  - (* a handler of the core *)
    cbn [sh_handle]. unfold sh_exec. rewrite lift_run. cbn [fst snd].
    rewrite core_effects_Core, orb_false_r.
    pose proof (handle_step (os_isWeb os) ev (core ui) id) as (H1 & H2 & H3 & H4).
    unfold engine_count in *.
    destruct ui as [st tok reg tst]. cbn [core with_core tokenRegistered] in *.
    split_and!; try done. intros Hne. now destruct (Hne ev).
  - (* the token arrives *)
    rewrite push_token_resolved_run. cbn zeta. cbn [fst snd].
    rewrite on_push_token_run, orb_false_r. cbn [fst core tokenRegistered].
    destruct (token_truthy _); destruct ui as [[ms sh lo re] tok reg tst]; cbn.
    all: split_and!; try done; lia.
  - (* the web registration settles *)
    cbn [sh_handle]. rewrite registerWebDevice_settle_run. cbn [fst core tokenRegistered].
    split_and!; try done; lia.
  - (* the native registration settles *)
    cbn [sh_handle]. rewrite registerTokenWithBackend_settle_run.
    cbn [fst core tokenRegistered messages shownNotifications].
    split_and!; try done; lia.
  - (* the Test button of the header *)
    cbn [sh_handle]. rewrite orb_false_r, sendTestNotification_press_run.
    destruct (token_truthy _); cbn; split_and!; try done; lia.
  - (* the test request settles *)
    cbn [sh_handle]. rewrite orb_false_r.
    destruct ui as [[ms sh lo re] tok reg tst].
    destruct reply as [|code [| |[succ err res]]]; [| | |destruct succ].
    all: sh_unfold; js_unfold; cbn; split_and!; try done; lia.
  - (* the refresh after the test request settles *)
    cbn [sh_handle]. rewrite sendTestNotification_refreshed_run. cbn [fst snd core].
    rewrite core_effects_app, core_effects_Core, notified_app, orb_false_r.
    pose proof (handle_step (os_isWeb os) (Settled false net now) (core ui) id)
      as (H1 & H2 & H3 & H4).
    unfold engine_count in *. cbn [from_fetch handle] in *.
    assert (Hz : notified id
                   (core_effects
                      [Core (if os_isWeb os then
                         AlertAlert "Success!"
                           ("Test notification created successfully!" +:+ newline
                            +:+ newline +:+ "Created "
                            +:+ pretty (N.of_nat (created_count result))
                            +:+ " notification(s). Check the message list below.")
                       else AlertAlert "Success" "Test notification sent via Bull Queue!")])
                 = 0%nat) by now destruct (os_isWeb os).
    rewrite Hz, Nat.add_0_r. cbn [tokenRegistered].
    split_and!; try done. intros _ Hne. now destruct (Hne result net now).
Qed.

Lemma sh_run_cons os server ev evs ui :
  sh_run os server (ev :: evs) ui =
  ((sh_run os server evs (sh_exec (sh_handle os server ev) ui).1).1,
   (ev, (sh_exec (sh_handle os server ev) ui).2)
     :: (sh_run os server evs (sh_exec (sh_handle os server ev) ui).1).2).
Proof.
  cbn [sh_run]. destruct (sh_exec (sh_handle os server ev) ui) as [ui1 out].
  cbn [fst snd]. destruct (sh_run os server evs ui1); reflexivity.
Qed.

(** X19. [tokenRegistered] is set by a successful registration reply and
    by nothing else, and it is never cleared: after any run of the whole
    component it is true exactly when it was true at the start or some
    registration of the run settled on a body with a truthy [success]. *)
Theorem registered_only_by_success os server evs ui :
  tokenRegistered (sh_run os server evs ui).1 =
  tokenRegistered ui || existsb registers evs.
Proof.
  revert ui. induction evs as [|ev evs IH]; intros ui.
  - cbn. now rewrite orb_false_r.
  - rewrite sh_run_cons. cbn [fst existsb]. rewrite IH.
    pose proof (sh_handle_step os server ev ui "") as (_ & _ & _ & _ & Hr & _).
    rewrite Hr. now rewrite orb_assoc.
Qed.

Lemma sh_run_invariant os server id evs : ∀ ui,
  shownNotifications (core ui) ⊆
    shownNotifications (core (sh_run os server evs ui).1) ∧
  (sh_engine_alerts id (sh_run os server evs ui).2 ≤ 1)%nat ∧
  (id ∈ shownNotifications (core ui) →
   sh_engine_alerts id (sh_run os server evs ui).2 = 0%nat) ∧
  (sh_engine_alerts id (sh_run os server evs ui).2 = 1%nat →
   id ∈ shownNotifications (core (sh_run os server evs ui).1)).
Proof.
  induction evs as [|ev evs IH]; intros ui.
  - cbn. split_and!; try done; lia.
  - rewrite sh_run_cons. cbn [fst snd sh_engine_alerts].
    pose proof (sh_handle_step os server ev ui id) as (H1 & H2 & H3 & H4 & _).
    specialize (IH (sh_exec (sh_handle os server ev) ui).1).
    destruct IH as (I1 & I2 & I3 & I4).
    set (n := if sh_from_fetch ev then _ else 0%nat) in *.
    split_and!.
    + set_solver.
    + destruct (decide (n = 1%nat)) as [E|E]; [rewrite I3 by auto|]; lia.
    + intros Hin. rewrite H3 by done. rewrite I3; [done|set_solver].
    + intros Hn. destruct (decide (n = 1%nat)) as [E|E].
      * apply I1. auto.
      * apply I4. lia.
Qed.

(** X20. At most one alert per identity in the whole component: in any
    run, with registrations, test messages and their refreshes among the
    events of the core, the alert decision of [fetchMessages] schedules
    at most one notification for an identity, and none for an identity
    the ledger holds at the start. *)
Theorem whole_app_alerts_at_most_once os server evs ui id :
  (sh_engine_alerts id (sh_run os server evs ui).2 ≤ 1)%nat ∧
  (id ∈ shownNotifications (core ui) →
   sh_engine_alerts id (sh_run os server evs ui).2 = 0%nat).
Proof.
  pose proof (sh_run_invariant os server id evs ui) as (_ & H1 & H2 & _).
  split; [exact H1 | exact H2].
Qed.

Lemma whole_app_alerts_at_most_once_witness :
  let m := sample "t1" "Sent" (TsDate 990000) (TsDate 0) in
  let ok_result := {| api_success := true; api_error := None; api_results := None |} in
  sh_engine_alerts "t1"
    (sh_run Android "http://10.0.0.2:3001"
       [TestPress; TestPosted (PostAnswered 200 (JsonValue ok_result));
        TestRefreshed ok_result (ok_reply 20 [m]) 1000000;
        SCore (Settled true (ok_reply 30 [m]) 1000500)]
       {| core := with_shown {[ "t1" ]} initial;
          expoPushToken := Some "ExponentPushToken[a]";
          tokenRegistered := true; testingNotification := false |}).2 = 0%nat.
Proof.
  intros m ok_result.
  apply whole_app_alerts_at_most_once.
  apply (bool_decide_unpack _). vm_compute. exact I.
Defined.

(** X21. Registration and the test message leave the store and the
    ledger alone: the only steps of the whole component that can change
    them are the handlers of the core and the refresh that follows a
    successful test request. *)
Theorem shell_steps_frame os server ev ui :
  (∀ e, ev ≠ SCore e) → (∀ r net now, ev ≠ TestRefreshed r net now) →
  messages (core (sh_exec (sh_handle os server ev) ui).1) = messages (core ui) ∧
  shownNotifications (core (sh_exec (sh_handle os server ev) ui).1)
    = shownNotifications (core ui).
Proof.
  intros H1 H2.
  now apply (sh_handle_step os server ev ui "").
Qed.

Lemma shell_steps_frame_witness :
  let ui := {| core := {| messages := [sample "k" "Sent" TsAbsent (TsDate 5)];
                          shownNotifications := {[ "k" ]};
                          loading := false; refreshing := false |};
               expoPushToken := Some "ExponentPushToken[a]";
               tokenRegistered := false; testingNotification := false |} in
  messages (core (sh_exec (sh_handle Ios "http://10.0.0.2:3001"
                             (BackendRegistered PostFailed)) ui).1) = messages (core ui) ∧
  shownNotifications (core (sh_exec (sh_handle Ios "http://10.0.0.2:3001"
                             (BackendRegistered PostFailed)) ui).1)
    = shownNotifications (core ui).
Proof.
  intros ui.
  apply (shell_steps_frame Ios "http://10.0.0.2:3001" (BackendRegistered PostFailed) ui);
    discriminate.
Defined.

Lemma web_token_shape (now : Z) :
  token_truthy (Some ("web-simulator-token-" +:+ pretty now)) = true ∧
  includes "web-simulator" ("web-simulator-token-" +:+ pretty now) = true.
Proof.
  split.
  - cbn [token_truthy]. now rewrite bool_decide_eq_false_2.
  - reflexivity.
Qed.

(** X22. The Test button of the header and the guard of its handler
    agree: when the button is enabled, a press opens no dialog, sends
    exactly one test request (its [deviceId] is null when the token
    contains [web-simulator] and left out otherwise), and leaves the
    button disabled; the dialog [No push token available] is all a press
    does when the token is falsy, and then the state is unchanged. In the
    browser the token stored on mount always makes the request carry a
    null [deviceId]. *)
Theorem test_button_guard os ui :
  (test_disabled ui = false →
   post_requests (sh_exec (sendTestNotification_press os) ui).2 =
     [ImmediateMessage "SEPHealth Test"
        (if os_isWeb os then WEB_TEST_BODY else MOBILE_TEST_BODY) "Test"
        (if includes "web-simulator" (default "" (expoPushToken ui))
         then Null else Omitted)] ∧
   dialogs (core_effects (sh_exec (sendTestNotification_press os) ui).2) = 0%nat ∧
   test_disabled (sh_exec (sendTestNotification_press os) ui).1 = true ∧
   core (sh_exec (sendTestNotification_press os) ui).1 = core ui) ∧
  (token_truthy (expoPushToken ui) = false →
   sh_exec (sendTestNotification_press os) ui =
   (ui, [Core (AlertAlert "Error" "No push token available")])) ∧
  (∀ now,
     post_requests
       (sh_exec (sendTestNotification_press Web) (sh_exec (sh_mount Web now) ui).1).2 =
     [ImmediateMessage "SEPHealth Test" WEB_TEST_BODY "Test" Null]).
Proof.
  split_and!.
  - unfold test_disabled. intros [Ht Hn]%orb_false_iff.
    apply negb_false_iff in Ht.
    rewrite sendTestNotification_press_run, Ht. cbn [fst snd].
    split_and!; try reflexivity.
    unfold test_disabled. cbn [expoPushToken testingNotification].
    now rewrite orb_true_r.
  - intros Ht. now rewrite sendTestNotification_press_run, Ht.
  - intros now. rewrite sendTestNotification_press_run, sh_mount_run.
    cbn [fst os_isWeb expoPushToken default]. unfold id.
    destruct (web_token_shape now) as [-> ->]. reflexivity.
Qed.

Lemma test_button_guard_witness :
  let ui := {| core := initial; expoPushToken := Some "ExponentPushToken[a]";
               tokenRegistered := true; testingNotification := false |} in
  post_requests (sh_exec (sendTestNotification_press Android) ui).2 =
  [ImmediateMessage "SEPHealth Test" MOBILE_TEST_BODY "Test" Omitted].
Proof.
  intros ui.
  pose proof (test_button_guard Android ui) as (H & _ & _).
  apply H. reflexivity.
Defined.

Lemma sendTestNotification_posted_run reply ui :
  sh_exec (sendTestNotification_posted reply) ui =
  match reply with
  | PostAnswered _ (JsonValue r) =>
      if api_success r then
        ({| core := (exec (fetchMessages_call false) (core ui)).1;
            expoPushToken := expoPushToken ui;
            tokenRegistered := tokenRegistered ui;
            testingNotification := testingNotification ui |},
         [Core (ConsoleLog "Test notification result:");
          Core (ConsoleLog "Test notification created successfully");
          Core (ConsoleLog "Fetching messages from:"); Core (HttpGet false)])
      else
        ({| core := core ui; expoPushToken := expoPushToken ui;
            tokenRegistered := tokenRegistered ui; testingNotification := false |},
         [Core (ConsoleLog "Test notification result:");
          Core (AlertAlert "Error"
                  (or_default (api_error r) "Failed to send test notification"))])
  | _ =>
      ({| core := core ui; expoPushToken := expoPushToken ui;
          tokenRegistered := tokenRegistered ui; testingNotification := false |},
       (match reply with
        | PostAnswered _ JsonNull => [Core (ConsoleLog "Test notification result:")]
        | _ => []
        end) ++
       [Core (ConsoleError "Error sending test notification:");
        Core (AlertAlert "Error"
                "Failed to send test notification. Make sure Bull Queue server is running.")])
  end.
Proof.
  destruct ui as [[ms sh lo re] tok reg tst].
  destruct reply as [|code [| |[succ err res]]]; [| | |destruct succ]; reflexivity.
Qed.

(** X23. How a test request ends. When the POST gets no usable reply or
    a refusal, one dialog titled [Error] is opened, no fetch is started,
    [testingNotification] is false afterwards and the core is untouched.
    When it succeeds, no dialog is opened yet, one user-initiated fetch is
    started and [testingNotification] stays as it is until that fetch
    settles; then, whatever the fetch returned, no notification is
    scheduled, the last thing shown is the success dialog, and
    [testingNotification] and both spinners are false. *)
Theorem test_request_outcomes os reply result net now ui :
  (reply_success reply = false →
   dialogs (core_effects (sh_exec (sendTestNotification_posted reply) ui).2) = 1%nat ∧
   requests (core_effects (sh_exec (sendTestNotification_posted reply) ui).2) = 0%nat ∧
   testingNotification (sh_exec (sendTestNotification_posted reply) ui).1 = false ∧
   core (sh_exec (sendTestNotification_posted reply) ui).1 = core ui) ∧
  (reply_success reply = true →
   dialogs (core_effects (sh_exec (sendTestNotification_posted reply) ui).2) = 0%nat ∧
   core_effects (sh_exec (sendTestNotification_posted reply) ui).2 =
     [ConsoleLog "Test notification result:";
      ConsoleLog "Test notification created successfully";
      ConsoleLog "Fetching messages from:"; HttpGet false] ∧
   testingNotification (sh_exec (sendTestNotification_posted reply) ui).1
     = testingNotification ui ∧
   sh_value (sendTestNotification_posted reply) ui = Some true) ∧
  ((∀ id, notified id
           (core_effects (sh_exec (sendTestNotification_refreshed os result net now) ui).2)
         = 0%nat) ∧
   (∃ text, last (sh_exec (sendTestNotification_refreshed os result net now) ui).2
            = Some (Core (AlertAlert (if os_isWeb os then "Success!" else "Success") text))) ∧
   testingNotification (sh_exec (sendTestNotification_refreshed os result net now) ui).1
     = false ∧
   loading (core (sh_exec (sendTestNotification_refreshed os result net now) ui).1) = false ∧
   refreshing (core (sh_exec (sendTestNotification_refreshed os result net now) ui).1)
     = false).
Proof.
  split_and!.
  - intros Hr. rewrite sendTestNotification_posted_run.
    destruct reply as [|code [| |[succ err res]]]; cbn in Hr; subst;
      cbn; split_and!; reflexivity.
  - intros Hr. unfold sh_value.
    pose proof (sendTestNotification_posted_run reply ui) as Hrun.
    destruct reply as [|code [| |[succ err res]]]; cbn in Hr; try discriminate.
    subst succ. rewrite Hrun. cbn [api_success fst snd].
    split_and!; reflexivity.
  - intros id. rewrite sendTestNotification_refreshed_run. cbn [snd].
    rewrite core_effects_app, core_effects_Core, notified_app.
    pose proof (handle_step (os_isWeb os) (Settled false net now) (core ui) id)
      as (_ & H2 & _).
    pose proof (settle_user_quiet (os_isWeb os) net now (core ui)) as Hq.
    assert (Hn : notified id
                   (exec (fetchMessages_settle (os_isWeb os) false net now) (core ui)).2
                 = 0%nat).
    { unfold presented in Hq. unfold notified.
      set (out := (exec _ (core ui)).2) in *. clearbody out.
      induction out as [|e out IH]; [done|].
      simpl in *. destruct e; simpl in *; try done; try (now apply IH).
      destruct (bool_decide _); simpl in *; [done|now apply IH]. }
    rewrite Hn. now destruct (os_isWeb os).
  - rewrite sendTestNotification_refreshed_run. cbn [snd].
    rewrite last_snoc. destruct (os_isWeb os); eauto.
  - now rewrite sendTestNotification_refreshed_run.
  - rewrite sendTestNotification_refreshed_run. cbn [fst core].
    pose proof (settle_flags_facts (os_isWeb os) net now (core ui)) as (H & _).
    exact H.
  - rewrite sendTestNotification_refreshed_run. cbn [fst core].
    pose proof (settle_flags_facts (os_isWeb os) net now (core ui)) as (_ & H & _).
    exact H.
Qed.

Lemma test_request_outcomes_witness :
  let ui := {| core := initial; expoPushToken := Some "ExponentPushToken[a]";
               tokenRegistered := true; testingNotification := true |} in
  let refusal := PostAnswered 500
                   (JsonValue {| api_success := false; api_error := Some "queue down";
                                 api_results := None |}) in
  testingNotification (sh_exec (sendTestNotification_posted refusal) ui).1 = false ∧
  core (sh_exec (sendTestNotification_posted refusal) ui).1 = core ui.
Proof.
  intros ui refusal.
  pose proof (test_request_outcomes Android refusal
                {| api_success := true; api_error := None; api_results := None |}
                ConnectionFailed 0 ui) as (H & _).
  destruct (H eq_refl) as (_ & _ & H3 & H4). exact (conj H3 H4).
Defined.

(** ** The addresses of the backend *)

Lemma string_prefix_refl s : String.prefix s s = true.
Proof.
  induction s as [|c s IH]; [done|].
  cbn. destruct (Ascii.ascii_dec c c); [exact IH|done].
Qed.

Lemma string_drop_app s t : string_drop (String.length s) (s +:+ t) = t.
Proof. induction s as [|c s IH]; [done|]. exact IH. Qed.

Lemma string_drop_all s : string_drop (String.length s) s = "".
Proof. induction s as [|c s IH]; [done|]. exact IH. Qed.

Lemma replace_first_eq pat rep s :
  replace_first pat rep s =
  if String.prefix pat s then rep +:+ string_drop (String.length pat) s
  else match s with
       | EmptyString => EmptyString
       | String c s' => String c (replace_first pat rep s')
       end.
Proof. destruct s; reflexivity. Qed.

Lemma index_of_eq pat s :
  index_of pat s =
  if String.prefix pat s then Some O
  else match s with
       | EmptyString => None
       | String _ s' => S <$> index_of pat s'
       end.
Proof. destruct s; reflexivity. Qed.

Lemma replace_first_absent pat rep s :
  index_of pat s = None → replace_first pat rep s = s.
Proof.
  induction s as [|c s IH]; rewrite index_of_eq, replace_first_eq.
  - destruct (String.prefix pat ""); [discriminate|done].
  - destruct (String.prefix pat (String c s)); [discriminate|].
    intros H. f_equal. apply IH. now destruct (index_of pat s).
Qed.

Lemma replace_first_at_end pat base :
  index_of pat (base +:+ pat) = Some (String.length base) →
  replace_first pat "" (base +:+ pat) = base.
Proof.
  induction base as [|c base IH].
  - intros _. cbn [String.append].
    rewrite replace_first_eq, string_prefix_refl, string_drop_all. reflexivity.
  - change (String c base +:+ pat) with (String c (base +:+ pat)).
    change (String.length (String c base)) with (S (String.length base)).
    rewrite index_of_eq, replace_first_eq.
    destruct (String.prefix pat (String c (base +:+ pat)));
      [intros H; discriminate H|].
    intros H. f_equal. apply IH.
    destruct (index_of pat (base +:+ pat)) as [n|]; cbn in H; [|discriminate].
    congruence.
Qed.

(** X24. The address of the backend survives the detour through the
    server name: when the environment variable is a server name followed
    by [/api/push-messages], and that path occurs nowhere earlier in it,
    the server is that name and the address fetched from is the variable
    itself; when the path does not occur in the variable, the variable
    is taken as the server and the path is appended; and without the
    variable the built-in server is used. *)
Theorem endpoint_round_trip env base :
  (env = base +:+ PUSH_MESSAGES_PATH → base ≠ "" →
   index_of PUSH_MESSAGES_PATH env = Some (String.length base) →
   BULL_QUEUE_SERVER (Some env) = base ∧ API_ENDPOINT (Some env) = env ∧
   DEVICE_REGISTER_ENDPOINT (Some env) = base +:+ "/api/device/register") ∧
  (index_of PUSH_MESSAGES_PATH env = None → env ≠ "" →
   BULL_QUEUE_SERVER (Some env) = env ∧
   API_ENDPOINT (Some env) = env +:+ PUSH_MESSAGES_PATH) ∧
  API_ENDPOINT None = DEFAULT_SERVER +:+ PUSH_MESSAGES_PATH.
Proof.
  split_and!.
  - intros -> Hne Hidx.
    assert (Hs : BULL_QUEUE_SERVER (Some (base +:+ PUSH_MESSAGES_PATH)) = base).
    { unfold BULL_QUEUE_SERVER. cbn [fmap option_fmap option_map or_default].
      rewrite replace_first_at_end by done.
      now rewrite bool_decide_eq_false_2. }
    unfold API_ENDPOINT, DEVICE_REGISTER_ENDPOINT. now rewrite Hs.
  - intros Hidx Hne.
    assert (Hs : BULL_QUEUE_SERVER (Some env) = env).
    { unfold BULL_QUEUE_SERVER. cbn [fmap option_fmap option_map or_default].
      rewrite replace_first_absent by done.
      now rewrite bool_decide_eq_false_2. }
    unfold API_ENDPOINT. now rewrite Hs.
  - reflexivity.
Qed.

Lemma endpoint_round_trip_witness :
  API_ENDPOINT (Some "https://push.example.org:3001/api/push-messages")
  = "https://push.example.org:3001/api/push-messages" ∧
  BULL_QUEUE_SERVER (Some "192.168.1.20:3001") = "192.168.1.20:3001".
Proof.
  split.
  - pose proof (endpoint_round_trip "https://push.example.org:3001/api/push-messages"
                  "https://push.example.org:3001") as (H & _).
    apply H; [reflexivity | discriminate | reflexivity].
  - pose proof (endpoint_round_trip "192.168.1.20:3001" "") as (_ & H & _).
    apply H; [reflexivity | discriminate].
Defined.

(** ** The test message and the alert decision *)

(** X25. A test message is never alerted for on the device that sent it,
    once the refresh has seen it sent: when the fetch that follows a
    successful test request returns a message with status [Sent], then,
    whatever events follow in the whole component, the alert decision
    schedules no notification for the identity of that message. *)
Theorem test_message_never_alerts os server result net now (l : list Message) m ui evs :
  delivers net l → m ∈ l → status m = "Sent" →
  sh_engine_alerts (_id m)
    (sh_run os server evs
       (sh_exec (sendTestNotification_refreshed os result net now) ui).1).2 = 0%nat.
Proof.
  intros Hd Hin Hs.
  apply (sh_run_invariant os server (_id m) evs).
  rewrite sendTestNotification_refreshed_run. cbn [fst core].
  rewrite (settle_user _ _ _ l) by done. cbn [fst shownNotifications].
  apply elem_of_union_l. now apply sent_ids_member.
Qed.

Lemma test_message_never_alerts_witness :
  let m := sample "test-1" "Sent" (TsDate 999000) (TsDate 999000) in
  let result := {| api_success := true; api_error := None; api_results := Some 1%nat |} in
  let ui := {| core := initial; expoPushToken := Some "ExponentPushToken[a]";
               tokenRegistered := true; testingNotification := true |} in
  sh_engine_alerts "test-1"
    (sh_run Android "http://10.0.0.2:3001"
       [SCore PollTick; SCore (Settled true (ok_reply 25 [m]) 1000000)]
       (sh_exec (sendTestNotification_refreshed Android result (ok_reply 40 [m]) 999500)
          ui).1).2 = 0%nat.
Proof.
  intros m result ui.
  apply (test_message_never_alerts Android "http://10.0.0.2:3001" result
           (ok_reply 40 [m]) 999500 [m] m ui).
  - apply ok_reply_delivers. reflexivity.
  - apply list_elem_of_here.
  - reflexivity.
Defined.
